(** * Synchronisation client of instant-code (src/client.ts)

  A shallow embedding of the [Client] class: the per-session state machine
  that turns editor change events into CRDT operations and wire messages,
  and inbound wire messages into CRDT mutations and editor edits.

  The modules [./crdt], [./pid] and [./protocol] and the VS Code API are
  collaborators of [client.ts]; they enter the development through the
  class [Collaborators] and through a small model of a text document.
  [Logger.log] only writes diagnostics and is left out. *)

From Stdlib Require Import ZArith List String Ascii Bool Lia.
Import ListNotations.
Local Open Scope string_scope.
Local Open Scope list_scope.
Local Open Scope Z_scope.

Set Implicit Arguments.

(* ------------------------------------------------------------------ *)
(** ** Positions, ranges and documents of the editor API *)

Module VSCode.

(** [vscode.Position]: zero-based line and character. *)
Record Position := mkPosition { line : Z; character : Z }.

(** [vscode.Range]: a start and an end position. *)
Record Range := mkRange { start : Position; end_ : Position }.

(** [pos.translate(lineDelta, characterDelta)]. *)
Definition translate (p : Position) (lineDelta characterDelta : Z) : Position :=
  mkPosition (line p + lineDelta) (character p + characterDelta).

Definition Position_eqb (p q : Position) : bool :=
  (line p =? line q) && (character p =? character q).

(** [range.isEqual(other)]. *)
Definition isEqual (r s : Range) : bool :=
  Position_eqb (start r) (start s) && Position_eqb (end_ r) (end_ s).

Definition newline : ascii := ascii_of_nat 10.
Definition is_newline (a : ascii) : bool := Ascii.eqb a newline.

Fixpoint positionAt_from (s : string) (n : nat) (p : Position) : Position :=
  match n, s with
  | S n', String a s' =>
      positionAt_from s' n'
        (if is_newline a then mkPosition (line p + 1) 0
         else mkPosition (line p) (character p + 1))
  | _, _ => p
  end.

(** [document.positionAt(offset)]: the offset is clamped to the text. *)
Definition positionAt (s : string) (offset : Z) : Position :=
  positionAt_from s (Z.to_nat offset) (mkPosition 0 0).

Fixpoint offsetAt_from (s : string) (l c : nat) (acc : Z) : Z :=
  match s with
  | EmptyString => acc
  | String a s' =>
      match l with
      | S l' => offsetAt_from s' (if is_newline a then l' else l) c (acc + 1)
      | O =>
          match c with
          | O => acc
          | S c' => if is_newline a then acc else offsetAt_from s' O c' (acc + 1)
          end
      end
  end.

(** [document.offsetAt(position)]: the position is clamped to the text. *)
Definition offsetAt (s : string) (p : Position) : Z :=
  offsetAt_from s (Z.to_nat (line p)) (Z.to_nat (character p)) 0.

Definition strlen (s : string) : Z := Z.of_nat (String.length s).

(** The text once [t] is inserted at offset [o]. *)
Definition insertText (s : string) (o : Z) (t : string) : string :=
  let n := Z.to_nat o in
  (substring 0 n s ++ t ++ substring n (String.length s - n) s)%string.

(** The text once the offsets [o .. o + len - 1] are removed. *)
Definition deleteText (s : string) (o len : Z) : string :=
  let n := Z.to_nat o in
  let k := Z.to_nat len in
  (substring 0 n s ++ substring (n + k) (String.length s - (n + k)) s)%string.

(** [vscode.TextDocumentContentChangeEvent]. *)
Record ContentChange := mkChange
  { range : Range; rangeOffset : Z; rangeLength : Z; text : string }.

(** [vscode.TextDocumentChangeEvent]; a document is identified by its
    URI, one live [TextDocument] object existing per URI. *)
Record TextDocumentChangeEvent := mkEvent
  { e_document : string; contentChanges : list ContentChange }.

End VSCode.
Import VSCode.

(* ------------------------------------------------------------------ *)
(** ** Wire messages (src/client.ts, lines 48-56, 134-141, 211-279)

  The source handles messages as positional arrays; the constructors
  below are those arrays by tag, with one constructor for every other
  tag.  Fields that the client fills from [this.buffer!] and
  [this.clientId!] can be [undefined]. *)

Definition ClientId := Z.

Inductive Operation (P : Type) :=
| OP_INS (c : string) (pid : P)            (* [OP_INS, c, pid] *)
| OP_DEL (pid : P) (c : option string)      (* [OP_DEL, pid, c] *)
| OP_other (tag : Z).
Arguments OP_other {P} tag.

Inductive Message (P : Type) :=
| MSG_TEXT (op : Operation P) (buffer : option (Z * Z)) (clientId : option ClientId)
| MSG_AVAILABLE (isFirst : bool) (clientId : ClientId) (sessionShare : bool)
| MSG_INITIAL (bufferName : string) (buffer : Z * Z) (uids : list Z) (lines : list string)
| MSG_REQUEST
| MSG_INFO (sessionShare : bool) (username : option string) (agent : Z)
| MSG_other (tag : Z).
Arguments MSG_AVAILABLE {P} isFirst clientId sessionShare.
Arguments MSG_INITIAL {P} bufferName buffer uids lines.
Arguments MSG_REQUEST {P}.
Arguments MSG_INFO {P} sessionShare username agent.
Arguments MSG_other {P} tag.

(* ------------------------------------------------------------------ *)
(** ** Collaborators of the client

    What [client.ts] imports from [./crdt], [./pid] and [./protocol].
    [Pid] is the type of the run-time values found where the source says
    [Pid]; indexing past an array yields [undefinedPid].  The functions
    are total and do not throw; [validateMessage], whose result the
    client never reads, answers [Some e] where the validator throws the
    error [e]. *)

Class Collaborators := {
  Pid : Type;
  undefinedPid : Pid;
  CRDT : Type;
  newCRDT : CRDT;                                       (* new CRDT() *)
  sortedPids : CRDT -> list Pid;                        (* crdt.sortedPids *)
  crdt_insert : CRDT -> Pid -> string -> Z * CRDT;      (* crdt.insert(p, c) *)
  crdt_delete : CRDT -> Pid -> Z * CRDT;                (* crdt.delete(p) *)
  pidAt : CRDT -> Z -> Pid;                             (* crdt.pidAt(i) *)
  charAt : CRDT -> Pid -> option string;                (* crdt.charAt(p) *)
  asString : CRDT -> string;                            (* crdt.asString() *)
  initialize : CRDT -> Z -> list Z -> list string -> CRDT;
                                    (* crdt.initialize({ hostId, uids, lines }) *)
  generate : option ClientId -> Pid -> Pid -> Pid;      (* pid.generate *)
  serializable : Pid -> Pid;                            (* pid.serializable *)
  validateMessage : Message Pid -> option string;       (* protocol.validateMessage *)
  VSCODE_AGENT : Z                                      (* protocol.VSCODE_AGENT *)
}.

(* ------------------------------------------------------------------ *)
(** ** State of a session and observable effects *)

Inductive EditKind := insert | delete.

(** The type of [this.activeEdit] when it is defined. *)
Record ActiveEdit := mkActiveEdit
  { kind : EditKind; ae_range : Range; ae_text : string }.

(** How the promise of an [async] function settles. *)
Inductive Outcome (A : Type) :=
| Fulfilled (a : A)
| Rejected (e : string).
Arguments Rejected {A} e.

Section Client.

Context `{Collaborators}.

(** The fields of [class Client] (lines 15-23).  [websocket] and
    [subscriptions] are handles to the environment, whose state is kept
    in [World]. *)
Record Client := mkClient
  { isHost : bool;
    clientId : option ClientId;
    bufferName : option string;
    buffer : option (Z * Z);
    crdt : CRDT;
    document : string;
    activeEdit : option ActiveEdit }.

(** A client with the part of the environment it reads and writes: the
    text of its document, the documents shown in a visible editor, the
    configured user name, whether the listener of line 45 and those of
    [setupGuest] are attached, and the keys of [Client.sockets]. *)
Record World := mkWorld
  { this : Client;
    docText : string;
    visibleTextEditors : list string;
    username : option string;
    textListener : bool;
    socketListeners : bool;
    sockets : list string }.

Inductive Effect :=
| Validate (m : Message Pid)            (* protocol.validateMessage(m) is called *)
| WsSend (m : Message Pid)              (* websocket.send(JSON.stringify(m)) *)
| WsClose                               (* websocket.close() *)
| ShowErrorMessage (s : string)         (* window.showErrorMessage(s) *)
| ShowUnhandledMessage (m : Message Pid)
    (* window.showErrorMessage(`Received unhandled message ${JSON.stringify(m)}`) *)
| ShowTextDocument (doc : string)       (* window.showTextDocument(doc) *)
| EditInsert (pos : Position) (t : string)   (* editBuilder.insert(pos, t) *)
| EditDelete (r : Range).                    (* editBuilder.delete(r) *)

(** An [async] body run to its end: how its promise settles, the world
    it leaves, and the effects it performed, oldest first. *)
Definition M (A : Type) : Type := World -> Outcome A * World * list Effect.

Definition ret {A} (a : A) : M A := fun w => (Fulfilled a, w, []).

(** Sequencing; a rejection skips the rest, as a [throw] or the [await]
    of a rejected promise does. *)
Definition bind {A B} (m : M A) (f : A -> M B) : M B :=
  fun w =>
    match m w with
    | (Fulfilled a, w1, t1) =>
        match f a w1 with (r, w2, t2) => (r, w2, t1 ++ t2) end
    | (Rejected e, w1, t1) => (Rejected e, w1, t1)
    end.

Local Notation "x <- m ;; f" := (bind m (fun x => f))
  (at level 61, m at next level, right associativity).
Local Notation "m ;; f" := (bind m (fun _ => f))
  (at level 61, right associativity).

Definition throw {A} (e : string) : M A := fun w => (Rejected e, w, []).
Definition get : M World := fun w => (Fulfilled w, w, []).
Definition modify (f : World -> World) : M unit := fun w => (Fulfilled tt, f w, []).
Definition emit (e : Effect) : M unit := fun w => (Fulfilled tt, w, [e]).

(** Calling an [async] function and keeping its promise. *)
Definition settle {A} (m : M A) : M (Outcome A) :=
  fun w => match m w with (r, w1, t1) => (Fulfilled r, w1, t1) end.

(** Calling an [async] function and dropping its promise. *)
Definition detach {A} (m : M A) : M unit :=
  fun w => match m w with (_, w1, t1) => (Fulfilled tt, w1, t1) end.

(** [l.map(async ...)]: every callback is started, whatever the others do. *)
Fixpoint mapSettle {A B} (f : A -> M B) (l : list A) : M (list (Outcome B)) :=
  match l with
  | [] => ret []
  | a :: l' => r <- settle (f a) ;; rs <- mapSettle f l' ;; ret (r :: rs)
  end.

(** Running the synchronous part of a callback on every element. *)
Fixpoint forEach {A B} (f : A -> M B) (l : list A) : M (list B) :=
  match l with
  | [] => ret []
  | a :: l' => b <- f a ;; bs <- forEach f l' ;; ret (b :: bs)
  end.

(** [await promises.reduce((p, c) => p.then(() => c), Promise.resolve())]:
    rejected with the first rejection, in the order of the array. *)
Fixpoint awaitAll {B} (promises : list (Outcome B)) : M unit :=
  match promises with
  | [] => ret tt
  | Fulfilled _ :: l' => awaitAll l'
  | Rejected e :: _ => throw e
  end.

(** *** Field updates *)

Definition with_this (f : Client -> Client) (w : World) : World :=
  mkWorld (f (this w)) (docText w) (visibleTextEditors w) (username w)
          (textListener w) (socketListeners w) (sockets w).

Definition setThis (f : Client -> Client) : M unit := modify (with_this f).

Definition with_clientId (v : option ClientId) (c : Client) : Client :=
  mkClient (isHost c) v (bufferName c) (buffer c) (crdt c) (document c) (activeEdit c).

Definition with_buffer (n : option string) (b : option (Z * Z)) (c : Client) : Client :=
  mkClient (isHost c) (clientId c) n b (crdt c) (document c) (activeEdit c).

Definition with_crdt (v : CRDT) (c : Client) : Client :=
  mkClient (isHost c) (clientId c) (bufferName c) (buffer c) v (document c) (activeEdit c).

Definition with_activeEdit (v : option ActiveEdit) (c : Client) : Client :=
  mkClient (isHost c) (clientId c) (bufferName c) (buffer c) (crdt c) (document c) v.

Definition with_docText (s : string) (w : World) : World :=
  mkWorld (this w) s (visibleTextEditors w) (username w)
          (textListener w) (socketListeners w) (sockets w).

Definition with_visible (l : list string) (w : World) : World :=
  mkWorld (this w) (docText w) l (username w)
          (textListener w) (socketListeners w) (sockets w).

Definition with_textListener (b : bool) (w : World) : World :=
  mkWorld (this w) (docText w) (visibleTextEditors w) (username w)
          b (socketListeners w) (sockets w).

Definition with_socketListeners (b : bool) (w : World) : World :=
  mkWorld (this w) (docText w) (visibleTextEditors w) (username w)
          (textListener w) b (sockets w).

Definition with_sockets (l : list string) (w : World) : World :=
  mkWorld (this w) (docText w) (visibleTextEditors w) (username w)
          (textListener w) (socketListeners w) l.

(** [this.crdt.insert(p, c)] and [this.crdt.delete(p)]: the index they
    return, the CRDT object being updated in place. *)
Definition crdtInsert (p : Pid) (c : string) : M Z :=
  w <- get ;;
  let r := crdt_insert (crdt (this w)) p c in
  setThis (with_crdt (snd r)) ;; ret (fst r).

Definition crdtDelete (p : Pid) : M Z :=
  w <- get ;;
  let r := crdt_delete (crdt (this w)) p in
  setThis (with_crdt (snd r)) ;; ret (fst r).

(* ------------------------------------------------------------------ *)
(** ** Sending (lines 48-56, 129-141, 164-166) *)

Definition sendMessage (m : Message Pid) : M unit :=
  emit (Validate m) ;;
  match validateMessage m with
  | Some e => throw e
  | None => emit (WsSend m)
  end.

Definition sendInsert (p : Pid) (c : string) : M unit :=
  w <- get ;;
  sendMessage (MSG_TEXT (OP_INS c (serializable p)) (buffer (this w)) (clientId (this w))).

Definition sendDelete (p : Pid) (c : option string) : M unit :=
  w <- get ;;
  sendMessage (MSG_TEXT (OP_DEL (serializable p) c) (buffer (this w)) (clientId (this w))).

Definition sendInfo : M unit :=
  w <- get ;;
  sendMessage (MSG_INFO false (username w) VSCODE_AGENT).

Definition requestInitialBuffer : M unit := sendMessage MSG_REQUEST.

(* ------------------------------------------------------------------ *)
(** ** Local edits (lines 58-118) *)

(** [a[i]] on an array of PIDs. *)
Definition at_index (a : list Pid) (i : Z) : Pid :=
  if i <? 0 then undefinedPid else nth (Z.to_nat i) a undefinedPid.

(** [text.split('')]. *)
Fixpoint split (s : string) : list string :=
  match s with
  | EmptyString => []
  | String a s' => String a EmptyString :: split s'
  end.

(** The elements of an array with their indices, as [map] passes them. *)
Fixpoint indexed_from {A} (i : Z) (l : list A) : list (Z * A) :=
  match l with
  | [] => []
  | a :: l' => (i, a) :: indexed_from (i + 1) l'
  end.

(** Lines 61-64. *)
Definition previousPid (w : World) (pos : Position) (i : Z) : Pid :=
  if 0 <? i
  then pidAt (crdt (this w)) (offsetAt (docText w) (translate pos 0 (i - 1)))
  else at_index (sortedPids (crdt (this w))) 0.

(** Lines 65-68. *)
Definition nextPid (w : World) (change : ContentChange) (pos : Position) (i : Z) : Pid :=
  if i <? strlen (text change) - 1
  then pidAt (crdt (this w)) (offsetAt (docText w) (translate pos 0 i))
  else at_index (sortedPids (crdt (this w)))
                (Z.of_nat (List.length (sortedPids (crdt (this w)))) - 1).

(** The callback of lines 60-73 for the character [c] of index [i]. *)
Definition insertChar (change : ContentChange) (pos : Position) (ic : Z * string) : M unit :=
  w <- get ;;
  let p := generate (clientId (this w))
                    (previousPid w pos (fst ic)) (nextPid w change pos (fst ic)) in
  crdtInsert p (snd ic) ;;
  sendInsert p (snd ic).

Definition insertFromContentChange (change : ContentChange) : M unit :=
  w <- get ;;
  let pos := positionAt (docText w) (rangeOffset change) in
  promises <- mapSettle (insertChar change pos) (indexed_from 0 (split (text change))) ;;
  awaitAll promises.

(** Lines 78-79. *)
Definition deletedIndices (change : ContentChange) : list Z :=
  map (fun i => Z.of_nat i + rangeOffset change) (seq 0 (Z.to_nat (rangeLength change))).

Definition deletedPids (w : World) (change : ContentChange) : list Pid :=
  map (fun i => pidAt (crdt (this w)) i) (deletedIndices change).

(** The callback of lines 80-83 up to its [await]: the DELETE is sent at
    once; line 82 runs when the promise of [sendDelete] has settled. *)
Definition deleteSend (p : Pid) : M (Pid * Outcome unit) :=
  w <- get ;;
  r <- settle (sendDelete p (charAt (crdt (this w)) p)) ;;
  ret (p, r).

Definition deleteResume (sent : Pid * Outcome unit) : M unit :=
  match snd sent with
  | Fulfilled _ => crdtDelete (fst sent) ;; ret tt
  | Rejected e => throw e
  end.

(** [deleteFromContentChange] up to its first suspension, and from there
    to its end. *)
Definition deleteFromContentChange_start (change : ContentChange)
  : M (list (Pid * Outcome unit)) :=
  w <- get ;;
  forEach deleteSend (deletedPids w change).

Definition deleteFromContentChange_finish (sent : list (Pid * Outcome unit)) : M unit :=
  promises <- mapSettle deleteResume sent ;;
  awaitAll promises.

Definition deleteFromContentChange (change : ContentChange) : M unit :=
  sent <- deleteFromContentChange_start change ;;
  deleteFromContentChange_finish sent.

(** Lines 97 and 104: is the change the echo of the edit in progress? *)
Definition isInsertEcho (ae : option ActiveEdit) (change : ContentChange) : bool :=
  match ae with
  | Some a =>
      match kind a with
      | insert => rangeOffset change =? character (start (ae_range a))
      | delete => false
      end
  | None => false
  end.

Definition isDeleteEcho (ae : option ActiveEdit) (change : ContentChange) : bool :=
  match ae with
  | Some a =>
      match kind a with
      | delete => isEqual (range change) (ae_range a) && (text change =? "")%string
      | insert => false
      end
  | None => false
  end.

(** The callback of lines 95-115 for one change, run alone to its end. *)
Definition handleChange (change : ContentChange) : M unit :=
  w <- get ;;
  if rangeLength change =? 0 then
    if isInsertEcho (activeEdit (this w)) change then ret tt
    else insertFromContentChange change
  else if 0 <? rangeLength change then
    if isDeleteEcho (activeEdit (this w)) change then ret tt
    else deleteFromContentChange change ;; insertFromContentChange change
  else ret tt.

(** With several changes in one event the callbacks interleave: [map]
    starts each of them in turn and runs it to its first suspension,
    which [insertFromContentChange] reaches with all its work done and
    [deleteFromContentChange] with its DELETEs sent and the CRDT
    untouched.  The deletions of line 82 then run, in the order of the
    changes, three turns of the job queue later; a replace whose
    deletions all went through resumes at line 111 after three more turns
    for each deleted character, so the shorter ranges insert first. *)
Inductive Callback :=
| Settled (r : Outcome unit)
| AwaitingDelete (change : ContentChange) (sent : list (Pid * Outcome unit))
| AwaitingInsert (change : ContentChange).

Definition changeStart (change : ContentChange) : M Callback :=
  w <- get ;;
  if rangeLength change =? 0 then
    if isInsertEcho (activeEdit (this w)) change then ret (Settled (Fulfilled tt))
    else r <- settle (insertFromContentChange change) ;; ret (Settled r)
  else if 0 <? rangeLength change then
    if isDeleteEcho (activeEdit (this w)) change then ret (Settled (Fulfilled tt))
    else sent <- deleteFromContentChange_start change ;; ret (AwaitingDelete change sent)
  else ret (Settled (Fulfilled tt)).

Definition changeDeleted (cb : Callback) : M Callback :=
  match cb with
  | AwaitingDelete change sent =>
      r <- settle (deleteFromContentChange_finish sent) ;;
      ret (match r with
           | Fulfilled _ => AwaitingInsert change
           | Rejected e => Settled (Rejected e)
           end)
  | _ => ret cb
  end.

Fixpoint pendingInserts (k : nat) (cbs : list Callback) : list (nat * ContentChange) :=
  match cbs with
  | [] => []
  | AwaitingInsert change :: cbs' => (k, change) :: pendingInserts (S k) cbs'
  | _ :: cbs' => pendingInserts (S k) cbs'
  end.

Fixpoint insertByLength (x : nat * ContentChange) (l : list (nat * ContentChange))
  : list (nat * ContentChange) :=
  match l with
  | [] => [x]
  | y :: l' =>
      if rangeLength (snd x) <=? rangeLength (snd y) then x :: y :: l'
      else y :: insertByLength x l'
  end.

Definition resumeOrder (cbs : list Callback) : list (nat * ContentChange) :=
  fold_right insertByLength [] (pendingInserts 0 cbs).

Definition changeInserted (kc : nat * ContentChange) : M (nat * Outcome unit) :=
  r <- settle (insertFromContentChange (snd kc)) ;; ret (fst kc, r).

Fixpoint outcomeOf (k : nat) (done : list (nat * Outcome unit)) : Outcome unit :=
  match done with
  | [] => Fulfilled tt
  | (j, r) :: done' => if Nat.eqb j k then r else outcomeOf k done'
  end.

Fixpoint outcomes (k : nat) (cbs : list Callback) (done : list (nat * Outcome unit))
  : list (Outcome unit) :=
  match cbs with
  | [] => []
  | Settled r :: cbs' => r :: outcomes (S k) cbs' done
  | _ :: cbs' => outcomeOf k done :: outcomes (S k) cbs' done
  end.

Definition handleTextChange (e : TextDocumentChangeEvent) : M unit :=
  w <- get ;;
  if negb (e_document e =? document (this w))%string then ret tt
  else
    started <- forEach changeStart (contentChanges e) ;;
    deleted <- forEach changeDeleted started ;;
    inserted <- forEach changeInserted (resumeOrder deleted) ;;
    awaitAll (outcomes 0 deleted inserted).

(* ------------------------------------------------------------------ *)
(** ** The editor surface

    An edit requested through [editor.edit] changes the text of the
    document and is reported to the listener of line 45 before anything
    else happens to the session: handlers run to completion, one event at
    a time.  An edit that changes nothing reports nothing. *)

(** Lines 120-127. *)
Definition close : M unit :=
  modify (with_socketListeners false) ;;
  modify (with_textListener false) ;;
  emit WsClose.

(** Line 169: is an editor of the session's document visible? *)
Definition hasEditor (w : World) : bool :=
  existsb (String.eqb (document (this w))) (visibleTextEditors w).

(** Lines 168-179; [true] stands for the editor found. *)
Definition editor : M bool :=
  w <- get ;;
  if hasEditor w then ret true
  else
    emit (ShowErrorMessage
            ("Could not find editor for document " ++ document (this w))%string) ;;
    close ;;
    ret false.

Definition fire (e : TextDocumentChangeEvent) : M unit :=
  w <- get ;;
  if textListener w then detach (handleTextChange e) else ret tt.

(** [editor.edit((editBuilder) => editBuilder.insert(pos, t))]. *)
Definition editInsert (pos : Position) (t : string) : M unit :=
  emit (EditInsert pos t) ;;
  w <- get ;;
  let o := offsetAt (docText w) pos in
  let p := positionAt (docText w) o in
  if (t =? "")%string then ret tt
  else
    modify (with_docText (insertText (docText w) o t)) ;;
    fire (mkEvent (document (this w)) [mkChange (mkRange p p) o 0 t]).

(** [editor.edit((editBuilder) => editBuilder.delete(r))]. *)
Definition editDelete (r : Range) : M unit :=
  emit (EditDelete r) ;;
  w <- get ;;
  let o := offsetAt (docText w) (start r) in
  let o' := offsetAt (docText w) (end_ r) in
  if o' <=? o then ret tt
  else
    modify (with_docText (deleteText (docText w) o (o' - o))) ;;
    fire (mkEvent (document (this w))
            [mkChange (mkRange (positionAt (docText w) o) (positionAt (docText w) o'))
                      o (o' - o) ""]).

(* ------------------------------------------------------------------ *)
(** ** Remote operations (lines 184-209, 243-260) *)

Definition handleRemoteInsert (pid : Pid) (c : string) (clientId : option ClientId)
  : M unit :=
  i <- crdtInsert pid c ;;
  w <- get ;;
  let pos := positionAt (docText w) (i - 2) in
  setThis (with_activeEdit (Some (mkActiveEdit insert (mkRange pos pos) c))) ;;
  ed <- editor ;;
  (if ed then editInsert pos c else ret tt) ;;
  setThis (with_activeEdit None).

Definition handleRemoteDelete (pid : Pid) (c : option string) (clientId : option ClientId)
  : M unit :=
  i <- crdtDelete pid ;;
  w <- get ;;
  let pos := positionAt (docText w) (i - 2) in
  setThis (with_activeEdit
             (Some (mkActiveEdit delete (mkRange pos (translate pos 0 1)) ""))) ;;
  ed <- editor ;;
  if ed then editDelete (mkRange pos (translate pos 0 1)) else ret tt.

Definition handleText (op : Operation Pid) (clientId : option ClientId) : M unit :=
  match op with
  | OP_INS c pid => detach (handleRemoteInsert pid c clientId)
  | OP_DEL pid c => handleRemoteDelete pid c clientId
  | OP_other _ => ret tt
  end.

(* ------------------------------------------------------------------ *)
(** ** Handshake and dispatch (lines 146-162, 222-241, 262-279) *)

Definition handleAvailableMessage (isFirst : bool) (clientId : ClientId)
  (sessionShare : bool) : M unit :=
  w <- get ;;
  (if isFirst && negb (isHost (this w)) then
     emit (ShowErrorMessage "Error: guest was first to connect") ;; close
   else ret tt) ;;
  (if sessionShare then
     emit (ShowErrorMessage "Error: session share not implemented") ;; close
   else ret tt) ;;
  setThis (with_clientId (Some clientId)) ;;
  if negb (isHost (this w)) then detach requestInitialBuffer else ret tt.

Definition handleInitialMessage (bufferName : string) (buffer : Z * Z)
  (uids : list Z) (lines : list string) : M unit :=
  setThis (with_buffer (Some bufferName) (Some buffer)) ;;
  w <- get ;;
  setThis (with_crdt (initialize (crdt (this w)) (snd buffer) uids lines)) ;;
  (* window.showTextDocument(this.document).then((editor) => ...) *)
  emit (ShowTextDocument (document (this w))) ;;
  modify (fun v => with_visible (document (this v) :: visibleTextEditors v) v) ;;
  w' <- get ;;
  editInsert (mkPosition 0 0) (asString (crdt (this w'))).

Definition handleMessage (json : Message Pid) : M unit :=
  emit (Validate json) ;;
  match validateMessage json with
  | Some e => throw e
  | None =>
      match json with
      | MSG_TEXT op _ clientId => detach (handleText op clientId)
      | MSG_AVAILABLE isFirst clientId sessionShare =>
          detach (handleAvailableMessage isFirst clientId sessionShare)
      | MSG_INITIAL bufferName buffer uids lines =>
          detach (handleInitialMessage bufferName buffer uids lines)
      | _ => emit (ShowUnhandledMessage json)
      end
  end.

(* ------------------------------------------------------------------ *)
(** ** Construction (lines 27-46, 281-305) *)

(** The listeners of [setupGuest]. *)
Definition onOpen : M unit :=
  w <- get ;;
  if socketListeners w then detach sendInfo else ret tt.

Definition onMessage (json : Message Pid) : M unit :=
  w <- get ;;
  if socketListeners w then detach (handleMessage json) else ret tt.

Definition setupGuest : M unit := modify (with_socketListeners true).

Definition setupHost : M unit := throw "Not implemented".

(** The fields of a new object once lines 17-23 and 35-37 have run. *)
Definition newClient (isHost : bool) (document : string) : Client :=
  mkClient isHost None None None newCRDT document None.

(** [new Client(url, isHost, document)] in an environment where
    [docText] is the text of [document]: the object is allocated with
    no listener attached, the set-up is started and its promise dropped,
    and the change listener is subscribed. *)
Definition constructor (isHost : bool) (document : string) : M unit :=
  modify (fun env =>
            mkWorld (newClient isHost document) (docText env) (visibleTextEditors env)
                    (username env) false false (sockets env)) ;;
  detach (if isHost then setupHost else setupGuest) ;;
  modify (with_textListener true).

(** [Client.create(document, url, isHost)]. *)
Definition create (document : string) (isHost : bool) : M unit :=
  constructor isHost document ;;
  modify (fun w => with_sockets (document :: sockets w) w).

(* ------------------------------------------------------------------ *)
(** ** Vocabulary of the statements *)

Definition outcome {A} (x : Outcome A * World * list Effect) : Outcome A := fst (fst x).
Definition world {A} (x : Outcome A * World * list Effect) : World := snd (fst x).
Definition effects {A} (x : Outcome A * World * list Effect) : list Effect := snd x.

(** [m] keeps the invariant [I] of the world and performs effects
    accepted by [T]. *)
Definition respects (I : World -> Prop) (T : list Effect -> Prop) {A} (m : M A) : Prop :=
  forall w, I w -> I (world (m w)) /\ T (effects (m w)).

Definition isSend (e : Effect) : bool :=
  match e with
  | WsSend _ => true
  | _ => false
  end.

Definition isValidate (e : Effect) : bool :=
  match e with
  | Validate _ => true
  | _ => false
  end.

(** The validator is called for sending only, once for each attempt: a
    message it accepts is written to the socket next, a message it
    refuses is not written, and nothing else is written. *)
Inductive SendsValidated : list Effect -> Prop :=
| sv_nil : SendsValidated []
| sv_send m t :
    validateMessage m = None -> SendsValidated t ->
    SendsValidated (Validate m :: WsSend m :: t)
| sv_refused m e t :
    validateMessage m = Some e -> SendsValidated t ->
    SendsValidated (Validate m :: t)
| sv_skip e t :
    isSend e = false -> isValidate e = false -> SendsValidated t ->
    SendsValidated (e :: t).

(** The messages written to the socket, oldest first. *)
Fixpoint wire (t : list Effect) : list (Message Pid) :=
  match t with
  | [] => []
  | WsSend m :: t' => m :: wire t'
  | _ :: t' => wire t'
  end.

Definition isDeleteMessage (m : Message Pid) : bool :=
  match m with
  | MSG_TEXT (OP_DEL _ _) _ _ => true
  | _ => false
  end.

Definition isInsertMessage (m : Message Pid) : bool :=
  match m with
  | MSG_TEXT (OP_INS _ _) _ _ => true
  | _ => false
  end.

Definition onlyDeletes (t : list Effect) : Prop :=
  Forall (fun m => isDeleteMessage m = true) (wire t).

Definition onlyInserts (t : list Effect) : Prop :=
  Forall (fun m => isInsertMessage m = true) (wire t).

(** What [editor] performs when it finds no editor. *)
Definition noEditorEffects (w : World) : list Effect :=
  [ShowErrorMessage ("Could not find editor for document " ++ document (this w))%string;
   WsClose].

(** What [sendMessage] performs. *)
Definition sendEffects (m : Message Pid) : list Effect :=
  Validate m ::
  match validateMessage m with
  | None => [WsSend m]
  | Some _ => []
  end.

(** What [requestInitialBuffer] performs. *)
Definition requestEffects : list Effect := sendEffects MSG_REQUEST.

Definition accepted (m : Message Pid) : bool :=
  match validateMessage m with
  | None => true
  | Some _ => false
  end.

(** The DELETE that [sendDelete] builds for the PID [p]. *)
Definition deleteMessage (w : World) (p : Pid) : Message Pid :=
  MSG_TEXT (OP_DEL (serializable p) (charAt (crdt (this w)) p))
           (buffer (this w)) (clientId (this w)).

End Client.

Notation "x <- m ;; f" := (bind m (fun x => f))
  (at level 61, m at next level, right associativity).
Notation "m ;; f" := (bind m (fun _ => f))
  (at level 61, right associativity).

(* ------------------------------------------------------------------ *)
(** ** The absent modules, after the specification

    [src/crdt.ts], [src/pid.ts] and [src/protocol.ts] are not among the
    sources.  The definitions of this module follow sections 3 and 4 of the
    specification; they give the statements above concrete sessions to
    run on. *)

Module Spec.

(** Modelled from the spec: the PID of [src/pid.ts], an ordered sequence
    of levels, each a (digit, siteId) pair. *)
Definition Level : Type := Z * Z.
Definition Path : Type := list Level.

(** Modelled from the spec: [compare] of [src/pid.ts]; lexicographic,
    level by level on the digit and then on the siteId, a strict prefix
    sorting first. *)
Fixpoint compare (a b : Path) : comparison :=
  match a, b with
  | [], [] => Eq
  | [], _ :: _ => Lt
  | _ :: _, [] => Gt
  | (d1, s1) :: a', (d2, s2) :: b' =>
      match d1 ?= d2 with
      | Eq => match s1 ?= s2 with
              | Eq => compare a' b'
              | c => c
              end
      | c => c
      end
  end.

Definition ltb (a b : Path) : bool :=
  match compare a b with Lt => true | _ => false end.

Definition eqb (a b : Path) : bool :=
  match compare a b with Eq => true | _ => false end.

(** Modelled from the spec: [generate] of [src/pid.ts].  The levels of
    [prev] and [next] are scanned together; at the first level whose
    digits leave a gap of at least 2 a digit inside the gap (here the
    smallest) is appended with the siteId; a level without such a gap is
    kept and the search goes one level deeper, an absent digit of [prev]
    counting as 0 and an absent digit of [next] as [maxDigit]. *)
Fixpoint generate_from (fuel : nat) (maxDigit site : Z) (prev next : Path) : Path :=
  match fuel with
  | O => []
  | S fuel' =>
      let lo := match prev with [] => 0 | (d, _) :: _ => d end in
      let hi := match next with [] => maxDigit | (d, _) :: _ => d end in
      if 2 <=? hi - lo then [(lo + 1, site)]
      else
        match prev with
        | [] => (lo, site)
        | l :: _ => l
        end :: generate_from fuel' maxDigit site (tl prev) (tl next)
  end.

Definition generate (maxDigit : Z) (site : option ClientId) (prev next : option Path)
  : option Path :=
  match site, prev, next with
  | Some s, Some a, Some b =>
      Some (generate_from (S (List.length a + List.length b)) maxDigit s a b)
  | _, _, _ => None
  end.

(** Modelled from the spec: the class [CRDT] of [src/crdt.ts]; a mapping
    from PID to character and the ascending list of the live PIDs, the
    two sentinels included. *)
Record Sequence := mkSequence
  { chars : list (Path * string); sorted : list Path }.

(** Modelled from the spec: the mapping from PID to character, read and
    cleared at a PID. *)
Fixpoint lookup (p : Path) (m : list (Path * string)) : option string :=
  match m with
  | [] => None
  | (q, c) :: m' => if eqb q p then Some c else lookup p m'
  end.

Fixpoint remove (p : Path) (m : list (Path * string)) : list (Path * string) :=
  match m with
  | [] => []
  | (q, c) :: m' => if eqb q p then remove p m' else (q, c) :: remove p m'
  end.

(** Modelled from the spec: the index, where a PID stands and where a
    new one goes to keep the order. *)
Fixpoint indexOf (p : Path) (l : list Path) (i : Z) : Z :=
  match l with
  | [] => -1
  | q :: l' => if eqb q p then i else indexOf p l' (i + 1)
  end.

Fixpoint insertSorted (p : Path) (l : list Path) : list Path :=
  match l with
  | [] => [p]
  | q :: l' => if ltb p q then p :: q :: l' else q :: insertSorted p l'
  end.

(** Modelled from the spec: [insert] of [src/crdt.ts]; a no-op on a PID
    already present; returns the index of the PID. *)
Definition insert (s : Sequence) (p : option Path) (c : string) : Z * Sequence :=
  match p with
  | None => (-1, s)
  | Some p =>
      if 0 <=? indexOf p (sorted s) 0 then (indexOf p (sorted s) 0, s)
      else
        let l := insertSorted p (sorted s) in
        (indexOf p l 0, mkSequence ((p, c) :: chars s) l)
  end.

(** Modelled from the spec: [delete] of [src/crdt.ts]; returns the index
    the PID occupied, or -1 for an absent PID, which changes nothing. *)
Definition delete (s : Sequence) (p : option Path) : Z * Sequence :=
  match p with
  | None => (-1, s)
  | Some p =>
      if 0 <=? indexOf p (sorted s) 0 then
        (indexOf p (sorted s) 0,
         mkSequence (remove p (chars s))
                    (filter (fun q => negb (eqb q p)) (sorted s)))
      else (-1, s)
  end.

(** Modelled from the spec: [pidAt] of [src/crdt.ts]; the offset [o] of
    the text is the index [o + 2]. *)
Definition pidAt (s : Sequence) (o : Z) : option Path :=
  if o + 2 <? 0 then None else nth_error (sorted s) (Z.to_nat (o + 2)).

(** Modelled from the spec: [charAt] of [src/crdt.ts]. *)
Definition charAt (s : Sequence) (p : option Path) : option string :=
  match p with
  | None => None
  | Some p => lookup p (chars s)
  end.

(** Modelled from the spec: [asString] of [src/crdt.ts]; the characters
    of the PIDs that carry one, in ascending order. *)
Definition asString (s : Sequence) : string :=
  fold_right (fun p acc =>
                match lookup p (chars s) with
                | Some c => (c ++ acc)%string
                | None => acc
                end) ""%string (sorted s).

(** Modelled from the spec: the lines of a snapshot joined with the line
    separator. *)
Fixpoint join (lines : list string) : string :=
  match lines with
  | [] => ""
  | [l] => l
  | l :: ls => (l ++ String newline (join ls))%string
  end.

(** Modelled from the spec: [initialize] of [src/crdt.ts]; the snapshot
    replaces the state; each integer is the digit of a one-level PID of
    the host, and the PIDs after the two sentinels are aligned with the
    characters of the joined lines. *)
Definition initialize (s : Sequence) (hostId : Z) (uids : list Z) (lines : list string)
  : Sequence :=
  let pids := map (fun u => [(u, hostId)]) uids in
  mkSequence (combine (skipn 2 pids) (split (join lines))) pids.

(** Modelled from the spec: [validateMessage] of [src/protocol.ts]; the
    tag is known and the fields of the payload are present. *)
Definition validateMessage (m : Message (option Path)) : option string :=
  match m with
  | MSG_TEXT (OP_INS _ (Some _)) (Some _) (Some _) => None
  | MSG_TEXT (OP_DEL (Some _) (Some _)) (Some _) (Some _) => None
  | MSG_TEXT _ _ _ => Some "Invalid message"
  | MSG_INFO _ (Some _) _ => None
  | MSG_INFO _ None _ => Some "Invalid message"
  | MSG_other _ => Some "Invalid message"
  | _ => None
  end.

(** The collaborators, for a digit bound and an agent tag, which the
    specification leaves open. *)
Definition collaborators (maxDigit agent : Z) : Collaborators :=
  Build_Collaborators
    (None : option Path)                (* undefinedPid *)
    (mkSequence [] [])                  (* newCRDT *)
    (fun s => map Some (sorted s))      (* sortedPids *)
    insert delete pidAt charAt asString initialize
    (generate maxDigit)
    (fun p => p)                        (* serializable *)
    validateMessage
    agent.

End Spec.


(* ------------------------------------------------------------------ *)
(** ** Sessions used as instances of the statements *)

Module Sessions.

Definition hostSite : Z := 9.
Definition guestSite : Z := 5.

#[export] Instance collaborators : Collaborators := Spec.collaborators (2 ^ 32) 1.

(** The CRDT of a replica loaded from the snapshot of [lines] whose PIDs
    have the digits 0, 10, 20, ... *)
Definition snapshot (lines : list string) : CRDT :=
  initialize newCRDT hostSite
    (map (fun i => Z.of_nat i * 10) (seq 0 (2 + String.length (Spec.join lines))))
    lines.

(** A guest on the document "doc" whose CRDT holds [lines], while the
    document holds [txt] and [visible] lists the documents on screen. *)
Definition guest (lines : list string) (txt : string) (visible : list string) : World :=
  mkWorld (mkClient false (Some guestSite) (Some "buffer"%string) (Some (1, hostSite))
                    (snapshot lines) "doc"%string None)
          txt visible (Some "guest"%string) true true ["doc"%string].

(** A guest that has connected and not yet been given a site. *)
Definition connecting : World :=
  mkWorld (mkClient false None None None newCRDT "doc"%string None)
          ""%string ["doc"%string] (Some "guest"%string) true true ["doc"%string].

Definition docStart : Pid := Some [(0, hostSite)].
Definition lineStart : Pid := Some [(10, hostSite)].
Definition pidA : Pid := Some [(20, hostSite)].
Definition pidB : Pid := Some [(30, hostSite)].
Definition pidC : Pid := Some [(40, hostSite)].

(** The change reported when [t] is typed at column [o] of the first
    line, and when [n] characters from column [o] are replaced by [t]. *)
Definition typed (o : Z) (t : string) : ContentChange :=
  mkChange (mkRange (mkPosition 0 o) (mkPosition 0 o)) o 0 t.

Definition replaced (o n : Z) (t : string) : ContentChange :=
  mkChange (mkRange (mkPosition 0 o) (mkPosition 0 (o + n))) o n t.

End Sessions.

(* ------------------------------------------------------------------ *)
(** ** More vocabulary *)

(** An offset as [positionAt] and [offsetAt] take it: clamped to the text. *)
Definition clamp (s : string) (o : Z) : nat := Nat.min (Z.to_nat o) (String.length s).

Section MoreVocabulary.

Context `{Collaborators}.

(** The INSERT that [sendInsert] builds for the PID and character [pc]. *)
Definition insertMessage (w : World) (pc : Pid * string) : Message Pid :=
  MSG_TEXT (OP_INS (snd pc) (serializable (fst pc))) (buffer (this w)) (clientId (this w)).

(** How the promise of [sendDelete] settles for the PID [p]. *)
Definition deleteOutcome (w : World) (p : Pid) : Pid * Outcome unit :=
  (p, match validateMessage (deleteMessage w p) with
      | None => Fulfilled tt
      | Some e => Rejected e
      end).

Definition deleteAccepted (w : World) (p : Pid) : bool := accepted (deleteMessage w p).

(** [crdt.delete] on each PID of a list, in order. *)
Definition deleteAll (c : CRDT) (pids : list Pid) : CRDT :=
  fold_left (fun c p => snd (crdt_delete c p)) pids c.

(** The messages that the client builds: INFO without session share,
    REQUEST, and TEXT with an INSERT or a DELETE. *)
Definition isOutbound (m : Message Pid) : bool :=
  match m with
  | MSG_INFO false _ _ => true
  | MSG_REQUEST => true
  | MSG_TEXT (OP_INS _ _) _ _ => true
  | MSG_TEXT (OP_DEL _ _) _ _ => true
  | _ => false
  end.

(** The messages for which [handleMessage] has a case, and those among
    them that reach a handler: a TEXT does with the operations for which
    [handleText] has a case. *)
Definition hasCase (m : Message Pid) : bool :=
  match m with
  | MSG_TEXT _ _ _ | MSG_AVAILABLE _ _ _ | MSG_INITIAL _ _ _ _ => true
  | _ => false
  end.

Definition isHandled (m : Message Pid) : bool :=
  match m with
  | MSG_TEXT (OP_other _) _ _ => false
  | _ => hasCase m
  end.

(** The messages given to the validator, oldest first. *)
Fixpoint validations (t : list Effect) : list (Message Pid) :=
  match t with
  | [] => []
  | Validate m :: t' => m :: validations t'
  | _ :: t' => validations t'
  end.

End MoreVocabulary.


(* ------------------------------------------------------------------ *)
(** ** The commands of the extension (src/extension.ts)

    [URL] is the class of the platform: [newURL] answers [None] where
    [new URL(s)] throws, [port] reads and [setPort] assigns
    [parsedUrl.port]. *)

Class Platform := {
  URL : Type;
  newURL : string -> option URL;
  port : URL -> string;
  setPort : URL -> string -> URL
}.

(** [[a-zA-Z]]. *)
Definition isLetter (a : ascii) : bool :=
  let n := nat_of_ascii a in
  ((65 <=? n) && (n <=? 90) || (97 <=? n) && (n <=? 122))%nat.

(** Is the text made of letters? *)
Fixpoint letters (s : string) : bool :=
  match s with
  | String a s' => isLetter a && letters s'
  | EmptyString => true
  end.

(** The text after the letters at its start. *)
Fixpoint afterLetters (s : string) : string :=
  match s with
  | String a s' => if isLetter a then afterLetters s' else s
  | EmptyString => s
  end.

(** Does [s] start with [p]? *)
Fixpoint startsWith (p s : string) : bool :=
  match p with
  | EmptyString => true
  | String a p' =>
      match s with
      | String b s' => Ascii.eqb a b && startsWith p' s'
      | EmptyString => false
      end
  end.

(** Line 16, [attachUrl.match(/^[a-zA-Z]+?:\/\//)]: one letter or more
    and then [://], at the start. *)
Definition hasScheme (s : string) : bool :=
  match s with
  | String a s' => isLetter a && startsWith "://" (afterLetters s')
  | EmptyString => false
  end.

(** Lines 15-18. *)
Definition attachUrl (url : string) : string :=
  if hasScheme url then url else ("ws://" ++ url)%string.

(** [DEFAULT_PORT.toString()], line 8. *)
Definition DEFAULT_PORT : string := "8080".

(** What the commands do that can be seen from outside, and the answers
    of the user and the editor that they read. *)
Inductive Action `{Platform} :=
| AskUsername                          (* showInputBox({ prompt: 'Enter username' }) *)
| UpdateUsername (u : option string)   (* getConfiguration(..).update('username', u) *)
| AskServerUrl                         (* showInputBox({ prompt: 'Enter server URL' }) *)
| OpenTextDocument                     (* workspace.openTextDocument() *)
| ShowError (s : string)               (* window.showErrorMessage(s) *)
| CreateClient (documentUri : string) (url : URL) (isHost : bool)
                                       (* Client.create(documentUri, url, isHost) *)
| ShowDocument (documentUri : string). (* window.showTextDocument(doc) *)

Record Desk := mkDesk
  { configured : option string;     (* getConfiguration('instant-code').get('username') *)
    usernameAnswer : option string; (* the answer to 'Enter username' *)
    urlAnswer : option string;      (* the answer to 'Enter server URL' *)
    activeDocument : option string; (* window.activeTextEditor?.document.uri.toString() *)
    untitled : string }.            (* the URI of the document of openTextDocument() *)

Section Commands.

Context `{Platform}.

(** Is the value truthy: neither [undefined] nor the empty string? *)
Definition truthy (v : option string) : bool :=
  match v with
  | Some s => negb (s =? "")%string
  | None => false
  end.

(** Lines 10-27; [Rejected] where [new URL] throws. *)
Definition parseSessionUrl (url : option string) : Outcome (option URL) :=
  match url with
  | Some s =>
      if (s =? "")%string then Fulfilled None
      else
        match newURL (attachUrl s) with
        | Some parsedUrl =>
            Fulfilled (Some (if (port parsedUrl =? "")%string
                             then setPort parsedUrl DEFAULT_PORT
                             else parsedUrl))
        | None => Rejected "Invalid URL"
        end
  | None => Fulfilled None
  end.

(** Lines 29-37: what is done, the answer being always [true]. *)
Definition checkUsernameExists (d : Desk) : list Action :=
  if truthy (configured d) then []
  else [AskUsername; UpdateUsername (usernameAnswer d)].

(** Lines 39-42. *)
Definition promptServerUrl (d : Desk) : Outcome (option URL) * list Action :=
  (parseSessionUrl (urlAnswer d), [AskServerUrl]).

(** Lines 51-69.  The callback of line 57 runs once the new document is
    there, which is after line 62 has read [documentUri]. *)
Definition startSession (d : Desk) : Outcome unit * list Action :=
  let asked := checkUsernameExists d ++ snd (promptServerUrl d) in
  match fst (promptServerUrl d) with
  | Rejected e => (Rejected e, asked)
  | Fulfilled None => (Fulfilled tt, asked)
  | Fulfilled (Some url) =>
      match activeDocument d with
      | Some documentUri =>
          if (documentUri =? "")%string
          then (Fulfilled tt,
                asked ++ [OpenTextDocument;
                          ShowError "No active document, and couldn't create a new one"])
          else (Fulfilled tt, asked ++ [CreateClient documentUri url true])
      | None =>
          (Fulfilled tt,
           asked ++ [OpenTextDocument;
                     ShowError "No active document, and couldn't create a new one"])
      end
  end.

(** Lines 71-80. *)
Definition joinSession (d : Desk) : Outcome unit * list Action :=
  let asked := checkUsernameExists d ++ snd (promptServerUrl d) in
  match fst (promptServerUrl d) with
  | Rejected e => (Rejected e, asked)
  | Fulfilled None => (Fulfilled tt, asked)
  | Fulfilled (Some url) =>
      (Fulfilled tt,
       asked ++ [OpenTextDocument; CreateClient (untitled d) url false;
                 ShowDocument (untitled d)])
  end.

(** The sessions that a run creates: document, URL and role. *)
Fixpoint created (l : list Action) : list (string * URL * bool) :=
  match l with
  | [] => []
  | CreateClient documentUri url isHost :: l' => (documentUri, url, isHost) :: created l'
  | _ :: l' => created l'
  end.

End Commands.

(** A desk for the instances of the statements: URLs that are their
    addresses and name no port, a configured user, the address
    "localhost" for an answer and no editor in front. *)
Module Desks.

#[export] Instance addresses : Platform :=
  {| URL := string;
     newURL := fun s => Some s;
     port := fun _ => ""%string;
     setPort := fun u p => (u ++ ":" ++ p)%string |}.

Definition noEditor : Desk :=
  mkDesk (Some "guest"%string) None (Some "localhost"%string) None "untitled:Untitled-1".

End Desks.
(* ------------------------------------------------------------------ *)
(** ** Reasoning about handlers *)

Unset Implicit Arguments.

Create HintDb respects.

Ltac run := cbv [bind ret get throw emit modify settle detach setThis].

Section Respects.

Context `{Collaborators}.
Variable I : World -> Prop.
Variable T : list Effect -> Prop.
Hypothesis T_nil : T [].
Hypothesis T_app : forall t1 t2, T t1 -> T t2 -> T (t1 ++ t2).

Lemma respects_ret A (a : A) : respects I T (ret a).
Proof. intros w Hw; split; [exact Hw | exact T_nil]. Qed.

Lemma respects_throw A (e : string) : respects I T (@throw _ A e).
Proof. intros w Hw; split; [exact Hw | exact T_nil]. Qed.

Lemma respects_get : respects I T get.
Proof. intros w Hw; split; [exact Hw | exact T_nil]. Qed.

Lemma respects_modify (f : World -> World) :
  (forall w, I w -> I (f w)) -> respects I T (modify f).
Proof. intros Hf w Hw; split; [apply Hf, Hw | exact T_nil]. Qed.

Lemma respects_emit (e : Effect) : T [e] -> respects I T (emit e).
Proof. intros He w Hw; split; [exact Hw | exact He]. Qed.

Lemma respects_bind A B (m : M A) (f : A -> M B) :
  respects I T m -> (forall a, respects I T (f a)) -> respects I T (bind m f).
Proof.
  intros Hm Hf w Hw. destruct (Hm w Hw) as [Hw1 Ht1].
  unfold bind, world, effects in *.
  destruct (m w) as [[[a | e] w1] t1]; cbn in *.
  - destruct (Hf a w1 Hw1) as [Hw2 Ht2]. unfold world, effects in *.
    destruct (f a w1) as [[r w2] t2]; cbn in *. split; auto.
  - split; auto.
Qed.

Lemma respects_settle A (m : M A) : respects I T m -> respects I T (settle m).
Proof.
  intros Hm w Hw. destruct (Hm w Hw) as [Hw1 Ht1].
  unfold settle, world, effects in *. destruct (m w) as [[r w1] t1]; cbn in *; auto.
Qed.

Lemma respects_detach A (m : M A) : respects I T m -> respects I T (detach m).
Proof.
  intros Hm w Hw. destruct (Hm w Hw) as [Hw1 Ht1].
  unfold detach, world, effects in *. destruct (m w) as [[r w1] t1]; cbn in *; auto.
Qed.

Lemma respects_forEach A B (f : A -> M B) (l : list A) :
  (forall a, respects I T (f a)) -> respects I T (forEach f l).
Proof.
  intros Hf. induction l as [| a l IH]; cbn [forEach].
  - apply respects_ret.
  - apply respects_bind; [apply Hf | intros b].
    apply respects_bind; [exact IH | intros bs; apply respects_ret].
Qed.

Lemma respects_mapSettle A B (f : A -> M B) (l : list A) :
  (forall a, respects I T (f a)) -> respects I T (mapSettle f l).
Proof.
  intros Hf. induction l as [| a l IH]; cbn [mapSettle].
  - apply respects_ret.
  - apply respects_bind; [apply respects_settle, Hf | intros b].
    apply respects_bind; [exact IH | intros bs; apply respects_ret].
Qed.

Lemma respects_awaitAll B (l : list (Outcome B)) : respects I T (awaitAll l).
Proof.
  induction l as [| [b | e] l IH]; cbn [awaitAll].
  - apply respects_ret.
  - exact IH.
  - apply respects_throw.
Qed.

Lemma respects_sendMessage (m : Message Pid) :
  (forall e, validateMessage m = Some e -> T [Validate m]) ->
  (validateMessage m = None -> T [Validate m; WsSend m]) ->
  respects I T (sendMessage m).
Proof.
  intros Hv Hs w Hw. unfold sendMessage. run. unfold world, effects.
  destruct (validateMessage m) eqn:E; cbn; split; eauto.
Qed.

End Respects.

Ltac side := solve [auto with respects].

Ltac respects_step :=
  lazymatch goal with
  | |- respects _ _ (bind _ _) => apply respects_bind; [side .. | idtac | intros ?]
  | |- respects _ _ (ret _) => apply respects_ret; side
  | |- respects _ _ get => apply respects_get; side
  | |- respects _ _ (throw _) => apply respects_throw; side
  | |- respects _ _ (settle _) => apply respects_settle
  | |- respects _ _ (detach _) => apply respects_detach
  | |- respects _ _ (forEach _ _) => apply respects_forEach; [side .. | intros ?]
  | |- respects _ _ (mapSettle _ _) => apply respects_mapSettle; [side .. | intros ?]
  | |- respects _ _ (awaitAll _) => apply respects_awaitAll; side
  | |- respects _ _ (if ?b then _ else _) => destruct b
  | |- respects _ _ (match ?x with _ => _ end) => destruct x
  end.

(** *** Local edits: the CRDT is the only field written, and only INSERT
    and DELETE operations are sent. *)

Section LocalEdits.

Context `{Collaborators}.
Variable I : World -> Prop.
Variable T : list Effect -> Prop.
Hypothesis T_nil : T [].
Hypothesis T_app : forall t1 t2, T t1 -> T t2 -> T (t1 ++ t2).

Hypothesis I_crdt : forall v w, I w -> I (with_this (with_crdt v) w).

Hypothesis T_ins : forall c p b i,
  (forall e, validateMessage (MSG_TEXT (OP_INS c p) b i) = Some e ->
             T [Validate (MSG_TEXT (OP_INS c p) b i)]) /\
  (validateMessage (MSG_TEXT (OP_INS c p) b i) = None ->
   T [Validate (MSG_TEXT (OP_INS c p) b i); WsSend (MSG_TEXT (OP_INS c p) b i)]).

Hypothesis T_del : forall p c b i,
  (forall e, validateMessage (MSG_TEXT (OP_DEL p c) b i) = Some e ->
             T [Validate (MSG_TEXT (OP_DEL p c) b i)]) /\
  (validateMessage (MSG_TEXT (OP_DEL p c) b i) = None ->
   T [Validate (MSG_TEXT (OP_DEL p c) b i); WsSend (MSG_TEXT (OP_DEL p c) b i)]).

Lemma respects_crdtInsert p c : respects I T (crdtInsert p c).
Proof.
  unfold crdtInsert, setThis. repeat respects_step.
  apply respects_modify; [side .. | intros; apply I_crdt; assumption].
Qed.

Lemma respects_crdtDelete p : respects I T (crdtDelete p).
Proof.
  unfold crdtDelete, setThis. repeat respects_step.
  apply respects_modify; [side .. | intros; apply I_crdt; assumption].
Qed.

Lemma respects_sendInsert p c : respects I T (sendInsert p c).
Proof.
  unfold sendInsert. repeat respects_step.
  apply respects_sendMessage; apply T_ins.
Qed.

Lemma respects_sendDelete p c : respects I T (sendDelete p c).
Proof.
  unfold sendDelete. repeat respects_step.
  apply respects_sendMessage; apply T_del.
Qed.

Lemma respects_insertFromContentChange change :
  respects I T (insertFromContentChange change).
Proof.
  unfold insertFromContentChange, insertChar. repeat respects_step.
  - apply respects_crdtInsert.
  - apply respects_sendInsert.
Qed.

Lemma respects_deleteFromContentChange_start change :
  respects I T (deleteFromContentChange_start change).
Proof.
  unfold deleteFromContentChange_start, deleteSend. repeat respects_step.
  apply respects_sendDelete.
Qed.

Lemma respects_deleteFromContentChange_finish sent :
  respects I T (deleteFromContentChange_finish sent).
Proof.
  unfold deleteFromContentChange_finish, deleteResume. repeat respects_step.
  apply respects_crdtDelete.
Qed.

Lemma respects_handleChange change : respects I T (handleChange change).
Proof.
  unfold handleChange, deleteFromContentChange. repeat respects_step;
    auto using respects_insertFromContentChange,
      respects_deleteFromContentChange_start, respects_deleteFromContentChange_finish.
Qed.

Lemma respects_handleTextChange e : respects I T (handleTextChange e).
Proof.
  unfold handleTextChange, changeStart, changeDeleted, changeInserted.
  repeat respects_step;
    auto using respects_insertFromContentChange,
      respects_deleteFromContentChange_start, respects_deleteFromContentChange_finish.
Qed.

End LocalEdits.

(* ------------------------------------------------------------------ *)
(** ** Offsets and positions of a document *)

Lemma positionAt_from_spec s : forall n l0 c0 acc,
  (n <= String.length s)%nat ->
  let P := positionAt_from s n (mkPosition l0 c0) in
  l0 <= line P /\
  (line P = l0 -> character P = c0 + Z.of_nat n) /\
  offsetAt_from s (Z.to_nat (line P - l0))
                (Z.to_nat (if line P =? l0 then character P - c0 else character P)) acc
  = acc + Z.of_nat n.
Proof.
  induction s as [| a s IH]; intros n l0 c0 acc Hn; cbn [String.length] in Hn.
  - assert (n = 0%nat) by lia. subst n. cbn [positionAt_from line character]. cbv zeta.
    cbn [line character].
    rewrite Z.sub_diag, Z.eqb_refl, Z.sub_diag. cbn. repeat split; lia.
  - destruct n as [| n].
    + cbn [positionAt_from line character]. cbv zeta. cbn [line character].
      rewrite Z.sub_diag, Z.eqb_refl, Z.sub_diag. cbn. repeat split; lia.
    + cbn [positionAt_from line character]. cbv zeta.
      destruct (is_newline a) eqn:Ea.
      * specialize (IH n (l0 + 1) 0 (acc + 1) ltac:(lia)). cbv zeta in IH.
        destruct IH as (Hl & Hc & Ho).
        set (P := positionAt_from s n (mkPosition (l0 + 1) 0)) in *.
        split; [lia |]. split; [lia |].
        replace (line P =? l0) with false by (symmetry; apply Z.eqb_neq; lia).
        replace (Z.to_nat (line P - l0)) with (S (Z.to_nat (line P - (l0 + 1)))) by lia.
        cbn [offsetAt_from]. rewrite Ea.
        replace (if line P =? l0 + 1 then character P - 0 else character P)
          with (character P) in Ho by (destruct (line P =? l0 + 1); lia).
        rewrite Ho. lia.
      * specialize (IH n l0 (c0 + 1) (acc + 1) ltac:(lia)). cbv zeta in IH.
        destruct IH as (Hl & Hc & Ho).
        set (P := positionAt_from s n (mkPosition l0 (c0 + 1))) in *.
        split; [lia |]. split; [intros E; rewrite (Hc E); lia |].
        destruct (Z.eqb_spec (line P) l0) as [E | E].
        -- rewrite E, Z.sub_diag in *. specialize (Hc eq_refl).
           replace (Z.to_nat (character P - c0))
             with (S (Z.to_nat (character P - (c0 + 1)))) by lia.
           change (Z.to_nat 0) with 0%nat in *.
           cbn [offsetAt_from]. rewrite Ea. rewrite Ho. lia.
        -- destruct (Z.to_nat (line P - l0)) as [| k] eqn:Ek; [lia |].
           cbn [offsetAt_from]. rewrite Ea. rewrite Ho. lia.
Qed.

(** An offset of the text is the offset of its position. *)
Lemma offsetAt_positionAt s o :
  0 <= o <= strlen s -> offsetAt s (positionAt s o) = o.
Proof.
  unfold strlen, offsetAt, positionAt. intros Ho.
  pose proof (positionAt_from_spec s (Z.to_nat o) 0 0 0 ltac:(lia)) as HP.
  cbv zeta in HP. destruct HP as (Hl & Hc & HP).
  set (P := positionAt_from s (Z.to_nat o) (mkPosition 0 0)) in *.
  rewrite Z.sub_0_r in HP.
  replace (if line P =? 0 then character P - 0 else character P)
    with (character P) in HP by (destruct (line P =? 0); lia).
  rewrite HP. lia.
Qed.

(* ------------------------------------------------------------------ *)
(** ** Properties of the client, for any collaborators *)

Section Properties.

Context `{Collaborators}.

(** An event carrying one change is handled as that change alone. *)
Lemma handleTextChange_single change w :
  handleTextChange (mkEvent (document (this w)) [change]) w = handleChange change w.
Proof.
  unfold handleTextChange, handleChange, changeStart, changeDeleted, changeInserted,
    deleteFromContentChange.
  generalize insertFromContentChange deleteFromContentChange_start
    deleteFromContentChange_finish.
  intros ins start finish.
  cbn [e_document contentChanges forEach]. run.
  rewrite String.eqb_refl. cbn [negb].
  destruct (rangeLength change =? 0).
  - destruct (isInsertEcho (activeEdit (this w)) change); [reflexivity |].
    destruct (ins change w) as [[[[] | e] w1] t1]; cbn; rewrite ?app_nil_r; reflexivity.
  - destruct (0 <? rangeLength change); [| reflexivity].
    destruct (isDeleteEcho (activeEdit (this w)) change); [reflexivity |].
    destruct (start change w) as [[[sent | e] w1] t1]; [| reflexivity].
    cbn; run.
    destruct (finish sent w1) as [[[[] | e] w2] t2]; cbn; run.
    + destruct (ins change w2) as [[[[] | e] w3] t3];
        cbn; rewrite ?app_nil_r, <- ?app_assoc; reflexivity.
    + rewrite ?app_nil_r; reflexivity.
Qed.

(** Handling a change event writes no field of the session but the CRDT. *)
Lemma handleTextChange_frame e w :
  with_this (with_crdt (crdt (this w))) (world (handleTextChange e w)) = w.
Proof.
  assert (R : respects (fun v => with_this (with_crdt (crdt (this w))) v = w)
                       (fun _ => True) (handleTextChange e)).
  { apply respects_handleTextChange; auto. }
  apply R. destruct w as [[]]; reflexivity.
Qed.

Lemma handleTextChange_activeEdit e w :
  activeEdit (this (world (handleTextChange e w))) = activeEdit (this w).
Proof.
  rewrite <- (handleTextChange_frame e w) at 2. reflexivity.
Qed.

Lemma handleTextChange_docText e w :
  docText (world (handleTextChange e w)) = docText w.
Proof.
  rewrite <- (handleTextChange_frame e w) at 2. reflexivity.
Qed.

Lemma handleTextChange_visible e w :
  visibleTextEditors (world (handleTextChange e w)) = visibleTextEditors w.
Proof.
  rewrite <- (handleTextChange_frame e w) at 2. reflexivity.
Qed.

(** C9. A change event of another document leaves the session as it was:
    the handler returns at once, with the CRDT untouched, no PID
    generated and nothing sent. *)
Theorem handleTextChange_other_document e w :
  e_document e <> document (this w) ->
  handleTextChange e w = (Fulfilled tt, w, []).
Proof.
  intros Hd. unfold handleTextChange. run.
  destruct (String.eqb_spec (e_document e) (document (this w))) as [E | E].
  - contradiction.
  - reflexivity.
Qed.

(** C10. Applying a remote operation does not depend on the client id
    of its sender: two operations that differ in the sender only settle
    alike, leave the same session (CRDT and marker included) and perform
    the same effects on the editor. *)
Theorem handleText_sender_irrelevant (sender1 sender2 : option ClientId) w :
  (forall op, handleText op sender1 w = handleText op sender2 w) /\
  (forall pid c,
      handleRemoteInsert pid c sender1 w = handleRemoteInsert pid c sender2 w) /\
  (forall pid c,
      handleRemoteDelete pid c sender1 w = handleRemoteDelete pid c sender2 w).
Proof.
  split; [intros op; destruct op; reflexivity |].
  split; intros; reflexivity.
Qed.

(** C8. [setupHost] rejects with "Not implemented", yet nothing awaits
    its promise: creating a host session is fulfilled and leaves a client
    in the host role, with the change listener subscribed, no listener on
    the socket, and the session registered. *)
Theorem host_session_is_created document env :
  (forall w, setupHost w = (Rejected "Not implemented", w, [])) /\
  create document true env =
    (Fulfilled tt,
     mkWorld (newClient true document) (docText env) (visibleTextEditors env)
             (username env) true false (document :: sockets env),
     []).
Proof. split; reflexivity. Qed.

(** C3. On AVAILABLE the site is stored whatever the flags say, and a
    guest asks for the buffer whatever they say: the fatal cases show the
    error and close the connection, and then go on as the others do. *)
Theorem handleAvailableMessage_always_stores isFirst site sessionShare w :
  let r := handleAvailableMessage isFirst site sessionShare w in
  clientId (this (world r)) = Some site /\
  effects r =
    (if isFirst && negb (isHost (this w))
     then [ShowErrorMessage "Error: guest was first to connect"; WsClose] else []) ++
    (if sessionShare
     then [ShowErrorMessage "Error: session share not implemented"; WsClose] else []) ++
    (if negb (isHost (this w)) then requestEffects else []).
Proof.
  unfold handleAvailableMessage, requestInitialBuffer, sendMessage, close, requestEffects,
    sendEffects.
  run. unfold world, effects.
  destruct isFirst, sessionShare, (isHost (this w)), (validateMessage MSG_REQUEST);
    cbn; split; reflexivity.
Qed.

(** C7. With no visible editor for the document of the session a remote
    operation is not applied to the editor: the only effects are the
    error shown to the user and the closing of the connection, the
    text of the document is unchanged and the listeners are detached. *)
Theorem remote_apply_without_editor pid c c' sender w :
  hasEditor w = false ->
  let ins := handleRemoteInsert pid c sender w in
  let del := handleRemoteDelete pid c' sender w in
  effects ins = noEditorEffects w /\ effects del = noEditorEffects w /\
  docText (world ins) = docText w /\ docText (world del) = docText w /\
  socketListeners (world ins) = false /\ socketListeners (world del) = false /\
  textListener (world ins) = false /\ textListener (world del) = false.
Proof.
  intros Hv.
  unfold handleRemoteInsert, handleRemoteDelete, crdtInsert, crdtDelete, editor, close,
    noEditorEffects.
  run. unfold world, effects.
  repeat match goal with
  | |- context [hasEditor ?v] => progress change (hasEditor v) with (hasEditor w)
  end.
  rewrite Hv. cbn. repeat split; reflexivity.
Qed.

(** The editor applies an insertion: the edit is the first effect, the
    request is fulfilled, and the text changes at the offset of the
    position. *)
Lemma editInsert_spec pos t w :
  outcome (editInsert pos t w) = Fulfilled tt /\
  hd_error (effects (editInsert pos t w)) = Some (EditInsert pos t) /\
  docText (world (editInsert pos t w)) =
    (if (t =? "")%string then docText w
     else insertText (docText w) (offsetAt (docText w) pos) t) /\
  activeEdit (this (world (editInsert pos t w))) = activeEdit (this w).
Proof.
  unfold editInsert, fire.
  generalize handleTextChange_docText handleTextChange_activeEdit.
  generalize handleTextChange. intros handle Hd Ha.
  run. unfold outcome, world, effects in *.
  destruct (t =? "")%string; cbn; [auto |].
  destruct (textListener w); cbn; [| auto].
  match goal with
  | |- context [handle ?e ?v] =>
      specialize (Hd e v); specialize (Ha e v); destruct (handle e v) as [[r v'] t']
  end.
  cbn in *. auto.
Qed.

Lemma editDelete_spec r w :
  outcome (editDelete r w) = Fulfilled tt /\
  hd_error (effects (editDelete r w)) = Some (EditDelete r) /\
  activeEdit (this (world (editDelete r w))) = activeEdit (this w).
Proof.
  unfold editDelete, fire.
  generalize handleTextChange_activeEdit.
  generalize handleTextChange. intros handle Ha.
  run. unfold outcome, world, effects in *.
  match goal with |- context [if ?b then _ else _] => destruct b end; cbn; [auto |].
  destruct (textListener w); cbn; [| auto].
  match goal with
  | |- context [handle ?e ?v] =>
      specialize (Ha e v); destruct (handle e v) as [[r' v'] t']
  end.
  cbn in *. auto.
Qed.

(** C5. An inbound INSERT is inserted in the CRDT; the index returned,
    less 2, gives the position of the edit; the marker of an insertion at
    that position is recorded; the insertion is applied to the editor
    there, with the marker in place; and the marker is cleared.  Where
    the index less 2 is an offset of the text, the text of the document
    afterwards has the character at that offset. *)
Theorem handleRemoteInsert_applies pid c sender w :
  hasEditor w = true ->
  let inserted := crdt_insert (crdt (this w)) pid c in
  let pos := positionAt (docText w) (fst inserted - 2) in
  let marker := mkActiveEdit insert (mkRange pos pos) c in
  let marked :=
    with_this (with_activeEdit (Some marker)) (with_this (with_crdt (snd inserted)) w) in
  let applied := editInsert pos c marked in
  handleRemoteInsert pid c sender w =
    (Fulfilled tt, with_this (with_activeEdit None) (world applied), effects applied) /\
  hd_error (effects applied) = Some (EditInsert pos c) /\
  docText (world applied) =
    (if (c =? "")%string then docText w
     else insertText (docText w) (offsetAt (docText w) pos) c) /\
  activeEdit (this (world (handleRemoteInsert pid c sender w))) = None /\
  (c <> ""%string -> 0 <= fst inserted - 2 <= strlen (docText w) ->
   docText (world (handleRemoteInsert pid c sender w)) =
     insertText (docText w) (fst inserted - 2) c).
Proof.
  intros Hv. cbv zeta.
  set (pos := positionAt (docText w) (fst (crdt_insert (crdt (this w)) pid c) - 2)).
  set (marked :=
         with_this (with_activeEdit (Some (mkActiveEdit insert (mkRange pos pos) c)))
           (with_this (with_crdt (snd (crdt_insert (crdt (this w)) pid c))) w)).
  destruct (editInsert_spec pos c marked) as (Ho & Hh & Hd & _).
  assert (E : handleRemoteInsert pid c sender w =
              (Fulfilled tt,
               with_this (with_activeEdit None) (world (editInsert pos c marked)),
               effects (editInsert pos c marked))).
  { unfold handleRemoteInsert, crdtInsert, editor. clear Hh Hd. revert Ho.
    generalize editInsert. intros edit. run.
    repeat match goal with
    | |- context [hasEditor ?v] => progress change (hasEditor v) with (hasEditor w)
    end.
    rewrite Hv.
    repeat match goal with
    | |- context [edit ?p ?t ?v] => progress change (edit p t v) with (edit pos c marked)
    end.
    unfold outcome, world, effects.
    destruct (edit pos c marked) as [[o v'] t']. cbn. intros ->.
    rewrite app_nil_r. reflexivity. }
  split; [exact E |]. split; [exact Hh |]. split; [exact Hd |].
  rewrite E. split; [reflexivity |].
  intros Hc Hi. unfold world at 1. cbn [fst snd docText with_this].
  rewrite Hd. unfold pos. rewrite offsetAt_positionAt by exact Hi.
  destruct (String.eqb_spec c ""); [contradiction | reflexivity].
Qed.

(** [handleRemoteInsert] ends with the marker cleared, whether an editor
    was found or not. *)
Lemma handleRemoteInsert_clears_marker pid c sender w :
  activeEdit (this (world (handleRemoteInsert pid c sender w))) = None.
Proof.
  unfold handleRemoteInsert, crdtInsert, editor, close.
  assert (Ho : forall p t v, outcome (editInsert p t v) = Fulfilled tt)
    by (intros; apply editInsert_spec).
  revert Ho. generalize editInsert. intros edit Ho.
  run. unfold world, outcome in *.
  match goal with |- context [hasEditor ?v] => destruct (hasEditor v) end.
  - match goal with
    | |- context [edit ?p ?t ?v] => specialize (Ho p t v); destruct (edit p t v) as [[o v'] t']
    end.
    cbn in *. subst o. reflexivity.
  - reflexivity.
Qed.

(** C2. After a remote DELETE the marker of the deletion is still set:
    [handleRemoteDelete] records it and applies the edit, the echo of the
    edit is checked against it, and nothing clears it, whereas
    [handleRemoteInsert] ends by clearing its own. *)
Theorem handleRemoteDelete_keeps_marker pid c c' sender w :
  let deleted := crdt_delete (crdt (this w)) pid in
  let pos := positionAt (docText w) (fst deleted - 2) in
  activeEdit (this (world (handleRemoteInsert pid c sender w))) = None /\
  activeEdit (this (world (handleRemoteDelete pid c' sender w))) =
    Some (mkActiveEdit delete (mkRange pos (translate pos 0 1)) "").
Proof.
  cbv zeta. split; [apply handleRemoteInsert_clears_marker |].
  unfold handleRemoteDelete, crdtDelete, editor, close.
  assert (Ha : forall r v,
             activeEdit (this (world (editDelete r v))) = activeEdit (this v))
    by (intros; apply editDelete_spec).
  revert Ha. generalize editDelete. intros edit Ha.
  run. unfold world in *.
  match goal with |- context [hasEditor ?v] => destruct (hasEditor v) end.
  - match goal with
    | |- context [edit ?r ?v] => specialize (Ha r v); destruct (edit r v) as [[o v'] t']
    end.
    cbn in *. exact Ha.
  - reflexivity.
Qed.

(** *** Validation of what is sent *)

Lemma SendsValidated_app t1 t2 :
  SendsValidated t1 -> SendsValidated t2 -> SendsValidated (t1 ++ t2).
Proof.
  intros H1 H2. induction H1; cbn.
  - exact H2.
  - apply sv_send; assumption.
  - eapply sv_refused; eassumption.
  - apply sv_skip; assumption.
Qed.

#[local] Hint Resolve sv_nil SendsValidated_app : respects.

Local Abbreviation validated := (respects (fun _ : World => True) SendsValidated).

Lemma validated_sendMessage m : validated (sendMessage m).
Proof.
  apply respects_sendMessage.
  - intros e He. eapply sv_refused; [exact He | apply sv_nil].
  - intros Hm. apply sv_send; [exact Hm | apply sv_nil].
Qed.

Lemma validated_emit e :
  isSend e = false -> isValidate e = false -> validated (emit e).
Proof. intros Hs Hv. apply respects_emit. apply sv_skip; auto using sv_nil. Qed.

Lemma validated_modify f : validated (modify f).
Proof. apply respects_modify; auto with respects. Qed.

Lemma validated_handleTextChange e : validated (handleTextChange e).
Proof.
  apply respects_handleTextChange; auto with respects.
  - intros c p b i. split.
    + intros e' He. eapply sv_refused; [exact He | apply sv_nil].
    + intros Hm. apply sv_send; [exact Hm | apply sv_nil].
  - intros p c b i. split.
    + intros e' He. eapply sv_refused; [exact He | apply sv_nil].
    + intros Hm. apply sv_send; [exact Hm | apply sv_nil].
Qed.

Ltac validated_leaf :=
  first [ apply validated_sendMessage
        | apply validated_modify
        | apply validated_handleTextChange
        | apply validated_emit; reflexivity
        | assumption ].

Ltac validated_tac := repeat respects_step; try validated_leaf.

Lemma validated_close : validated close.
Proof. unfold close. validated_tac. Qed.

Lemma validated_editor : validated editor.
Proof. unfold editor, close. validated_tac. Qed.

Lemma validated_editInsert pos t : validated (editInsert pos t).
Proof. unfold editInsert, fire. validated_tac. Qed.

Lemma validated_editDelete r : validated (editDelete r).
Proof. unfold editDelete, fire. validated_tac. Qed.

Lemma validated_handleText op sender : validated (handleText op sender).
Proof.
  unfold handleText, handleRemoteInsert, handleRemoteDelete, crdtInsert, crdtDelete,
    setThis.
  validated_tac;
    first [apply validated_editor | apply validated_editInsert | apply validated_editDelete].
Qed.

Lemma validated_handleAvailableMessage isFirst site sessionShare :
  validated (handleAvailableMessage isFirst site sessionShare).
Proof.
  unfold handleAvailableMessage, requestInitialBuffer, setThis, close. validated_tac.
Qed.

Lemma validated_handleInitialMessage name buf uids lines :
  validated (handleInitialMessage name buf uids lines).
Proof.
  unfold handleInitialMessage, setThis. validated_tac. apply validated_editInsert.
Qed.

(** C6. A message goes through the validator once before it is sent and
    once after it is received: [sendMessage] validates and then writes
    what the validator accepted, and only that; [handleMessage] validates
    first and hands nothing to a handler that the validator refused; and
    in all that the handlers of inbound messages, of change events and of
    the opening of the socket perform, the validator is otherwise called
    for sending only, each accepted message being written next. *)
Theorem messages_are_validated :
  (forall m w,
      sendMessage m w =
        match validateMessage m with
        | None => (Fulfilled tt, w, [Validate m; WsSend m])
        | Some e => (Rejected e, w, [Validate m])
        end) /\
  (forall json w e,
      validateMessage json = Some e ->
      handleMessage json w = (Rejected e, w, [Validate json])) /\
  (forall json w,
      exists t, effects (handleMessage json w) = Validate json :: t /\ SendsValidated t) /\
  (forall e w, SendsValidated (effects (handleTextChange e w))) /\
  (forall w, SendsValidated (effects (onOpen w))).
Proof.
  split; [| split; [| split; [| split]]].
  - intros m w. unfold sendMessage. run.
    destruct (validateMessage m); reflexivity.
  - intros json w e He. unfold handleMessage. run. rewrite He. reflexivity.
  - intros json w.
    assert (D : forall v,
               SendsValidated
                 (effects
                    (match json with
                     | MSG_TEXT op _ sender => detach (handleText op sender)
                     | MSG_AVAILABLE isFirst site sessionShare =>
                         detach (handleAvailableMessage isFirst site sessionShare)
                     | MSG_INITIAL name buf uids lines =>
                         detach (handleInitialMessage name buf uids lines)
                     | _ => emit (ShowUnhandledMessage json)
                     end v))).
    { intros v.
      refine (proj2 ((_ : validated _) v I)).
      destruct json; validated_tac;
        first [ apply validated_handleText
              | apply validated_handleAvailableMessage
              | apply validated_handleInitialMessage ]. }
    unfold handleMessage. run. unfold effects in *.
    destruct (validateMessage json).
    + exists []. split; [reflexivity | apply sv_nil].
    + specialize (D w).
      match goal with
      | D : SendsValidated (snd ?x) |- context [?y] =>
          change y with x; destruct x as [[o v'] t']
      end.
      exists t'. split; [reflexivity | exact D].
  - intros e w.
    refine (proj2 ((_ : validated (handleTextChange e)) w I)).
    apply validated_handleTextChange.
  - intros w.
    refine (proj2 ((_ : validated onOpen) w I)).
    unfold onOpen, sendInfo. validated_tac.
Qed.

(** *** Where a typed character goes *)

(** For the only character of an insertion the neighbours are the first
    and the last PID of the index, wherever the change took place: the
    PID generated, the CRDT and the INSERT sent are those of the same
    character typed anywhere else. *)
Lemma single_character_neighbours (a : ascii) r o l pos w :
  let change := mkChange r o l (String a "") in
  previousPid w pos 0 = at_index (sortedPids (crdt (this w))) 0 /\
  nextPid w change pos 0 =
    at_index (sortedPids (crdt (this w)))
             (Z.of_nat (List.length (sortedPids (crdt (this w)))) - 1) /\
  forall r' o' l',
    insertFromContentChange change w =
    insertFromContentChange (mkChange r' o' l' (String a "")) w.
Proof.
  cbv zeta. split; [reflexivity |]. split; [reflexivity |].
  intros r' o' l'. reflexivity.
Qed.

(** *** The order of the operations of a replace *)

Lemma wire_app (t1 t2 : list Effect) : wire (t1 ++ t2) = wire t1 ++ wire t2.
Proof.
  induction t1 as [| e t1 IH]; [reflexivity |].
  destruct e; cbn; rewrite ?IH; reflexivity.
Qed.

Lemma onlyDeletes_app t1 t2 : onlyDeletes t1 -> onlyDeletes t2 -> onlyDeletes (t1 ++ t2).
Proof. unfold onlyDeletes. rewrite wire_app. intros. apply Forall_app; auto. Qed.

Lemma onlyInserts_app t1 t2 : onlyInserts t1 -> onlyInserts t2 -> onlyInserts (t1 ++ t2).
Proof. unfold onlyInserts. rewrite wire_app. intros. apply Forall_app; auto. Qed.

Lemma deleteFromContentChange_onlyDeletes change w :
  onlyDeletes (effects (deleteFromContentChange change w)).
Proof.
  assert (R : respects (fun _ => True) onlyDeletes (deleteFromContentChange change)).
  { unfold deleteFromContentChange.
    apply respects_bind; [exact onlyDeletes_app | |].
    - apply respects_deleteFromContentChange_start;
        auto using onlyDeletes_app; try (constructor; fail).
      intros p c b i. split; intros; repeat constructor.
    - intros sent. apply respects_deleteFromContentChange_finish;
        auto using onlyDeletes_app; constructor. }
  apply R. exact I.
Qed.

Lemma insertFromContentChange_onlyInserts change w :
  onlyInserts (effects (insertFromContentChange change w)).
Proof.
  assert (R : respects (fun _ => True) onlyInserts (insertFromContentChange change)).
  { apply respects_insertFromContentChange;
      auto using onlyInserts_app; try (constructor; fail).
    intros c p b i. split; intros; repeat constructor. }
  apply R. exact I.
Qed.

(** The deletion sends, for the PIDs at the offsets of the range and in
    their order, the DELETEs that the validator accepts, each with the
    character the CRDT holds for the PID; the CRDT is read before any of
    the deletions is applied. *)
Lemma deleteFromContentChange_start_spec change w :
  exists sent,
    deleteFromContentChange_start change w =
      (Fulfilled sent, w,
       flat_map (fun p => sendEffects (deleteMessage w p)) (deletedPids w change)).
Proof.
  unfold deleteFromContentChange_start. run.
  generalize (deletedPids w change). intros pids.
  assert (G : exists sent,
             forEach deleteSend pids w =
               (Fulfilled sent, w,
                flat_map (fun p => sendEffects (deleteMessage w p)) pids)).
  { induction pids as [| p pids [sent IH]].
    - exists []. reflexivity.
    - cbn [forEach flat_map]. unfold bind at 1.
      assert (E : exists r, deleteSend p w =
                              (Fulfilled (p, r), w, sendEffects (deleteMessage w p))).
      { unfold deleteSend, sendDelete, sendMessage, sendEffects, deleteMessage. run.
        destruct (validateMessage _); eexists; reflexivity. }
      destruct E as [r ->]. run. rewrite IH.
      exists ((p, r) :: sent). rewrite app_nil_r. reflexivity. }
  destruct G as [sent ->]. exists sent. reflexivity.
Qed.

Lemma deleteFromContentChange_finish_silent sent w :
  effects (deleteFromContentChange_finish sent w) = [].
Proof.
  assert (R : respects (fun _ => True) (fun t => t = [])
                       (deleteFromContentChange_finish sent)).
  { apply respects_deleteFromContentChange_finish; auto.
    intros t1 t2 -> ->. reflexivity. }
  apply R. exact I.
Qed.

Lemma deleteFromContentChange_effects change w :
  effects (deleteFromContentChange change w) =
    flat_map (fun p => sendEffects (deleteMessage w p)) (deletedPids w change).
Proof.
  unfold deleteFromContentChange. unfold bind.
  destruct (deleteFromContentChange_start_spec change w) as [sent ->].
  pose proof (deleteFromContentChange_finish_silent sent w) as Hf.
  unfold effects in *.
  destruct (deleteFromContentChange_finish sent w) as [[r w2] t2]; cbn in *.
  subst t2. apply app_nil_r.
Qed.

Lemma wire_sendEffects m : wire (sendEffects m) = if accepted m then [m] else [].
Proof. unfold sendEffects, accepted. destruct (validateMessage m); reflexivity. Qed.

Lemma deleteFromContentChange_wire change w :
  wire (effects (deleteFromContentChange change w)) =
    filter accepted (map (deleteMessage w) (deletedPids w change)).
Proof.
  rewrite deleteFromContentChange_effects.
  induction (deletedPids w change) as [| p pids IH]; [reflexivity |].
  cbn [flat_map map filter]. rewrite wire_app, wire_sendEffects, IH.
  destruct (accepted (deleteMessage w p)); reflexivity.
Qed.

(** The insertion of a replace by one character is the insertion of
    that character typed anywhere: after the deletion the neighbours are
    again the first and the last PID of the index. *)
Lemma replace_inserts_as_if_typed_anywhere (a : ascii) r o l r' o' l' w :
  let change := mkChange r o l (String a "") in
  bind (deleteFromContentChange change) (fun _ => insertFromContentChange change) w =
  bind (deleteFromContentChange change)
       (fun _ => insertFromContentChange (mkChange r' o' l' (String a ""))) w.
Proof. reflexivity. Qed.

(** A change that replaces a range sends the DELETEs of the range and
    then the INSERTs of the new text: what it performs splits into the
    effects of the deletion, which sends nothing but DELETE operations,
    followed by those of the insertion, which sends nothing but INSERT
    operations. *)
Lemma replace_deletes_then_inserts change w :
  0 < rangeLength change ->
  isDeleteEcho (activeEdit (this w)) change = false ->
  exists t1 t2,
    effects (handleTextChange (mkEvent (document (this w)) [change]) w) = t1 ++ t2 /\
    t1 = effects (deleteFromContentChange change w) /\
    onlyDeletes t1 /\ onlyInserts t2.
Proof.
  intros Hl He. rewrite handleTextChange_single. unfold handleChange.
  generalize (deleteFromContentChange_onlyDeletes change)
    (insertFromContentChange_onlyInserts change).
  generalize (deleteFromContentChange change) (insertFromContentChange change).
  intros del ins Hd Hi. run.
  replace (rangeLength change =? 0) with false by (symmetry; apply Z.eqb_neq; lia).
  replace (0 <? rangeLength change) with true by (symmetry; apply Z.ltb_lt; lia).
  rewrite He. specialize (Hd w). unfold effects in *.
  destruct (del w) as [[[[] | e] w1] t1]; cbn in *.
  - specialize (Hi w1). destruct (ins w1) as [[r w2] t2]; cbn in *.
    exists t1, t2. auto.
  - exists t1, []. rewrite app_nil_r. repeat split; auto. constructor.
Qed.

End Properties.

(* ------------------------------------------------------------------ *)
(** ** More on offsets and positions *)

Lemma positionAt_from_clamp s : forall n p,
  positionAt_from s n p = positionAt_from s (Nat.min n (String.length s)) p.
Proof.
  induction s as [| a s IH]; intros n p.
  - destruct n; reflexivity.
  - destruct n as [| n]; [reflexivity |].
    cbn [String.length Nat.min positionAt_from]. apply IH.
Qed.

Lemma positionAt_from_bounds s : forall n l0 c0,
  (n <= String.length s)%nat -> 0 <= c0 ->
  let P := positionAt_from s n (mkPosition l0 c0) in
  0 <= character P /\
  (l0 < line P -> character P + (line P - l0) <= Z.of_nat n).
Proof.
  induction s as [| a s IH]; intros n l0 c0 Hn Hc; cbn [String.length] in Hn.
  - assert (n = 0%nat) by lia. subst n. cbn. lia.
  - destruct n as [| n]; [cbn; lia |].
    cbn [positionAt_from line character]. cbv zeta.
    destruct (is_newline a).
    + pose proof (IH n (l0 + 1) 0 ltac:(lia) ltac:(lia)) as B. cbv zeta in B.
      pose proof (positionAt_from_spec s n (l0 + 1) 0 0 ltac:(lia)) as S0.
      cbv zeta in S0. destruct S0 as (Hl & Hc0 & _).
      set (P := positionAt_from s n (mkPosition (l0 + 1) 0)) in *.
      destruct B as [B1 B2]. split; [exact B1 |]. intros _.
      destruct (Z.eq_dec (line P) (l0 + 1)) as [E | E].
      * rewrite (Hc0 E). lia.
      * specialize (B2 ltac:(lia)). lia.
    + pose proof (IH n l0 (c0 + 1) ltac:(lia) ltac:(lia)) as B. cbv zeta in B.
      set (P := positionAt_from s n (mkPosition l0 (c0 + 1))) in *.
      destruct B as [B1 B2]. split; [exact B1 |]. intros Hl.
      specialize (B2 Hl). lia.
Qed.

Lemma positionAt_facts s o :
  let P := positionAt s o in
  let n := Z.of_nat (clamp s o) in
  offsetAt s P = n /\
  positionAt s n = P /\
  0 <= line P /\ 0 <= character P /\
  (line P = 0 -> character P = n) /\
  (0 < line P -> character P < n).
Proof.
  cbv zeta. unfold clamp.
  set (n := Nat.min (Z.to_nat o) (String.length s)).
  assert (Hn : (n <= String.length s)%nat) by (unfold n; lia).
  assert (EP : positionAt s o = positionAt s (Z.of_nat n)).
  { unfold positionAt. rewrite Nat2Z.id. apply positionAt_from_clamp. }
  rewrite EP.
  pose proof (positionAt_from_spec s n 0 0 0 Hn) as S0. cbv zeta in S0.
  pose proof (positionAt_from_bounds s n 0 0 Hn ltac:(lia)) as B. cbv zeta in B.
  unfold positionAt. rewrite Nat2Z.id.
  set (P := positionAt_from s n (mkPosition 0 0)) in *.
  destruct S0 as (Hl & Hc & _). destruct B as (B1 & B2).
  split.
  { change (offsetAt s P = Z.of_nat n).
    replace P with (positionAt s (Z.of_nat n)) by (unfold positionAt; rewrite Nat2Z.id; reflexivity).
    apply offsetAt_positionAt. unfold strlen. lia. }
  split; [reflexivity |].
  split; [exact Hl |]. split; [exact B1 |].
  split; [intros E; rewrite (Hc E); lia |].
  intros Hp. specialize (B2 Hp). lia.
Qed.

Lemma offsetAt_from_here s acc : offsetAt_from s 0 0 acc = acc.
Proof. destruct s; reflexivity. Qed.

Lemma next_column_from s : forall n l0 c0 acc,
  (n <= String.length s)%nat -> 0 <= c0 ->
  let P := positionAt_from s n (mkPosition l0 c0) in
  let rel := if line P =? l0 then character P - c0 else character P in
  let o' := offsetAt_from s (Z.to_nat (line P - l0)) (Z.to_nat (rel + 1)) acc in
  o' = acc + Z.of_nat n \/
  (o' = acc + Z.of_nat n + 1 /\
   positionAt_from s (S n) (mkPosition l0 c0) = translate P 0 1).
Proof.
  induction s as [| a s IH]; intros n l0 c0 acc Hn Hc; cbn [String.length] in Hn.
  - assert (n = 0%nat) by lia. subst n. left. cbn. lia.
  - destruct n as [| n].
    + cbn [positionAt_from line character]. cbv zeta. cbn [line character].
      rewrite Z.eqb_refl, !Z.sub_diag. cbn [Z.add].
      change (Z.to_nat 0) with 0%nat. change (Z.to_nat 1) with 1%nat.
      cbn [offsetAt_from].
      destruct (is_newline a) eqn:Ea.
      * left. cbn. lia.
      * right. rewrite offsetAt_from_here. split; [cbn; lia |].
        unfold translate. cbn [line character]. rewrite Z.add_0_r.
        destruct s; reflexivity.
    + cbn [positionAt_from line character]. cbv zeta.
      destruct (is_newline a) eqn:Ea.
      * pose proof (positionAt_from_spec s n (l0 + 1) 0 0 ltac:(lia)) as S0.
        cbv zeta in S0. destruct S0 as (Hl & _ & _).
        specialize (IH n (l0 + 1) 0 (acc + 1) ltac:(lia) ltac:(lia)). cbv zeta in IH.
        set (P := positionAt_from s n (mkPosition (l0 + 1) 0)) in *.
        replace (line P =? l0) with false by (symmetry; apply Z.eqb_neq; lia).
        replace (if line P =? l0 + 1 then character P - 0 else character P)
          with (character P) in IH by (destruct (line P =? l0 + 1); lia).
        replace (Z.to_nat (line P - l0)) with (S (Z.to_nat (line P - (l0 + 1)))) by lia.
        cbn [offsetAt_from]. rewrite Ea.
        destruct IH as [IH | [IH1 IH2]]; [left; lia | right].
        split; [lia |]. rewrite <- IH2. reflexivity.
      * pose proof (positionAt_from_spec s n l0 (c0 + 1) 0 ltac:(lia)) as S0.
        cbv zeta in S0. destruct S0 as (Hl & Hc0 & _).
        pose proof (positionAt_from_bounds s n l0 (c0 + 1) ltac:(lia) ltac:(lia)) as B.
        cbv zeta in B. destruct B as (B1 & _).
        specialize (IH n l0 (c0 + 1) (acc + 1) ltac:(lia) ltac:(lia)). cbv zeta in IH.
        set (P := positionAt_from s n (mkPosition l0 (c0 + 1))) in *.
        assert (G : offsetAt_from (String a s) (Z.to_nat (line P - l0))
                      (Z.to_nat ((if line P =? l0 then character P - c0 else character P) + 1))
                      acc
                    = offsetAt_from s (Z.to_nat (line P - l0))
                        (Z.to_nat ((if line P =? l0 then character P - (c0 + 1)
                                    else character P) + 1))
                        (acc + 1)).
        { destruct (Z.eqb_spec (line P) l0) as [E | E].
          - specialize (Hc0 E). rewrite E, Z.sub_diag.
            change (Z.to_nat 0) with 0%nat.
            replace (Z.to_nat (character P - c0 + 1))
              with (S (Z.to_nat (character P - (c0 + 1) + 1))) by lia.
            cbn [offsetAt_from]. rewrite Ea. reflexivity.
          - destruct (Z.to_nat (line P - l0)) as [| k] eqn:Ek; [lia |].
            cbn [offsetAt_from]. rewrite Ea. reflexivity. }
        rewrite G.
        destruct IH as [IH | [IH1 IH2]]; [left; lia | right].
        split; [lia |]. rewrite <- IH2. reflexivity.
Qed.

(** One column to the right of the position of an offset: the same
    offset where the line or the text ends there, the next offset and its
    position otherwise. *)
Lemma next_column s o :
  let P := positionAt s o in
  let n := Z.of_nat (clamp s o) in
  offsetAt s (translate P 0 1) = n \/
  (offsetAt s (translate P 0 1) = n + 1 /\ positionAt s (n + 1) = translate P 0 1).
Proof.
  cbv zeta.
  destruct (positionAt_facts s o) as (_ & EP & Hl & Hc & _). cbv zeta in EP.
  unfold clamp in *. set (n := Nat.min (Z.to_nat o) (String.length s)) in *.
  assert (Hn : (n <= String.length s)%nat) by (unfold n; lia).
  pose proof (next_column_from s n 0 0 0 Hn ltac:(lia)) as N. cbv zeta in N.
  rewrite <- EP in *. unfold positionAt in *. rewrite Nat2Z.id in *.
  set (P := positionAt_from s n (mkPosition 0 0)) in *.
  unfold offsetAt, translate. cbn [line character].
  rewrite Z.sub_0_r, Z.add_0_r in *.
  replace (if line P =? 0 then character P - 0 else character P)
    with (character P) in N by (destruct (line P =? 0); lia).
  rewrite Z.add_0_l in N.
  replace (Z.to_nat (Z.of_nat n + 1)) with (S n) by lia.
  unfold translate in N. cbn [line character] in N. rewrite Z.add_0_r in N.
  exact N.
Qed.

(* ------------------------------------------------------------------ *)
(** ** Further properties of the client *)

Section Further.

Context `{Collaborators}.

(** *** Local insertion *)

Lemma sendInsert_run p c w :
  sendInsert p c w =
    (match validateMessage (insertMessage w (p, c)) with
     | None => Fulfilled tt
     | Some e => Rejected e
     end, w, sendEffects (insertMessage w (p, c))).
Proof.
  unfold sendInsert, sendMessage, sendEffects, insertMessage. run. cbn [fst snd].
  destruct (validateMessage _); reflexivity.
Qed.

Lemma insertChars_run change pos v : forall ics w,
  with_this (with_crdt (crdt (this v))) w = v ->
  exists pids promises w',
    mapSettle (insertChar change pos) ics w =
      (Fulfilled promises, w',
       flat_map sendEffects (map (insertMessage v) (combine pids (map snd ics)))) /\
    List.length pids = List.length ics /\
    with_this (with_crdt (crdt (this v))) w' = v /\
    promises = map (fun pc => match validateMessage (insertMessage v pc) with
                              | None => Fulfilled tt
                              | Some e => Rejected e
                              end) (combine pids (map snd ics)).
Proof.
  induction ics as [| [i c] ics IH]; intros w Hw.
  - exists [], [], w. cbn. auto.
  - cbn [mapSettle]. unfold insertChar at 1. cbn [fst snd].
    set (p := generate (clientId (this w)) (previousPid w pos i) (nextPid w change pos i)).
    set (w1 := with_this (with_crdt (snd (crdt_insert (crdt (this w)) p c))) w).
    assert (Hw1 : with_this (with_crdt (crdt (this v))) w1 = v) by exact Hw.
    assert (Em : insertMessage w1 (p, c) = insertMessage v (p, c))
      by (unfold insertMessage; rewrite <- Hw; reflexivity).
    destruct (IH w1 Hw1) as (pids & promises & w' & E & Hl & Hw' & Hp).
    exists (p :: pids),
      (match validateMessage (insertMessage v (p, c)) with
       | None => Fulfilled tt
       | Some e => Rejected e
       end :: promises), w'.
    split; [| split; [cbn; lia | split; [exact Hw' | cbn; rewrite Hp; reflexivity]]].
    unfold crdtInsert. run. fold p. fold w1.
    rewrite sendInsert_run, Em. cbn [map combine flat_map].
    destruct (validateMessage (insertMessage v (p, c))); cbn;
      rewrite E; cbn; rewrite ?app_nil_r; reflexivity.
Qed.

Lemma awaitAll_run X (f : X -> option string) (l : list X) w :
  exists r,
    awaitAll (map (fun x => match f x with
                            | None => Fulfilled tt
                            | Some e => Rejected e
                            end) l) w = (r, w, []) /\
    (r = Fulfilled tt <-> Forall (fun x => f x = None) l).
Proof.
  induction l as [| x l (r & E & Hr)]; cbn [map awaitAll].
  - exists (Fulfilled tt). split; [reflexivity |]. split; auto.
  - destruct (f x) as [e |] eqn:Ef.
    + exists (Rejected e). split; [reflexivity |].
      split; [discriminate |]. intros F. inversion F; congruence.
    + exists r. split; [exact E |]. rewrite Hr. split.
      * intros F. constructor; assumption.
      * intros F. inversion F; assumption.
Qed.

Lemma map_snd_indexed_from A (l : list A) : forall i, map snd (indexed_from i l) = l.
Proof. induction l as [| a l IH]; intros i; cbn; [| rewrite IH]; reflexivity. Qed.

Lemma insertFromContentChange_run change w :
  exists pids,
    let messages := map (insertMessage w) (combine pids (split (text change))) in
    List.length pids = List.length (split (text change)) /\
    effects (insertFromContentChange change w) = flat_map sendEffects messages /\
    (outcome (insertFromContentChange change w) = Fulfilled tt <->
     Forall (fun m => validateMessage m = None) messages) /\
    with_this (with_crdt (crdt (this w))) (world (insertFromContentChange change w)) = w.
Proof.
  destruct (insertChars_run change (positionAt (docText w) (rangeOffset change)) w
              (indexed_from 0 (split (text change))) w)
    as (pids & promises & w' & E & Hl & Hw & Hp).
  { destruct w as [[]]; reflexivity. }
  rewrite map_snd_indexed_from in *.
  assert (L : List.length (indexed_from 0 (split (text change)))
              = List.length (split (text change))).
  { rewrite <- (map_snd_indexed_from _ (split (text change)) 0) at 2.
    symmetry. apply length_map. }
  destruct (awaitAll_run _ (fun pc => validateMessage (insertMessage w pc))
              (combine pids (split (text change))) w') as (r & Ea & Hr).
  rewrite <- Hp in Ea.
  assert (R : insertFromContentChange change w =
              (r, w', flat_map sendEffects
                        (map (insertMessage w) (combine pids (split (text change)))))).
  { unfold insertFromContentChange. run. rewrite E, Ea, app_nil_r. reflexivity. }
  exists pids. cbv zeta. rewrite R. unfold effects, outcome, world. cbn [fst snd].
  split; [lia |]. split; [reflexivity |]. split; [| exact Hw].
  rewrite Hr. rewrite Forall_map. reflexivity.
Qed.

Lemma validations_app (t1 t2 : list Effect) :
  validations (t1 ++ t2) = validations t1 ++ validations t2.
Proof.
  induction t1 as [| e t1 IH]; [reflexivity |].
  destruct e; cbn; rewrite ?IH; reflexivity.
Qed.

Lemma validations_sendEffects (l : list (Message Pid)) :
  validations (flat_map sendEffects l) = l.
Proof.
  induction l as [| m l IH]; [reflexivity |].
  cbn [flat_map]. rewrite validations_app, IH. unfold sendEffects.
  destruct (validateMessage m); reflexivity.
Qed.

Lemma wire_sendEffects_all (l : list (Message Pid)) :
  wire (flat_map sendEffects l) = filter accepted l.
Proof.
  induction l as [| m l IH]; [reflexivity |].
  cbn [flat_map filter]. rewrite wire_app, wire_sendEffects, IH.
  destruct (accepted m); reflexivity.
Qed.

(** X1. An insertion attempts one INSERT for each character of the
    inserted text, from left to right: each is given to the validator,
    and written to the socket if accepted, with its character and with
    the buffer and client id of the session; the promise is fulfilled
    when all were accepted; nothing of the session but the CRDT is
    written. *)
Theorem insertFromContentChange_attempts change w :
  exists pids,
    let messages := map (insertMessage w) (combine pids (split (text change))) in
    List.length pids = List.length (split (text change)) /\
    validations (effects (insertFromContentChange change w)) = messages /\
    wire (effects (insertFromContentChange change w)) = filter accepted messages /\
    (outcome (insertFromContentChange change w) = Fulfilled tt <->
     Forall (fun m => validateMessage m = None) messages) /\
    with_this (with_crdt (crdt (this w))) (world (insertFromContentChange change w)) = w.
Proof.
  destruct (insertFromContentChange_run change w) as (pids & Hl & He & Ho & Hw).
  exists pids. cbv zeta. rewrite He, validations_sendEffects, wire_sendEffects_all.
  auto.
Qed.

(** *** Local deletion *)

Lemma sendDelete_run p w :
  sendDelete p (charAt (crdt (this w)) p) w =
    (snd (deleteOutcome w p), w, sendEffects (deleteMessage w p)).
Proof.
  unfold sendDelete, sendMessage, sendEffects, deleteOutcome, deleteMessage. run.
  cbn [snd]. destruct (validateMessage _); reflexivity.
Qed.

Lemma deleteFromContentChange_start_run change w :
  deleteFromContentChange_start change w =
    (Fulfilled (map (deleteOutcome w) (deletedPids w change)), w,
     flat_map (fun p => sendEffects (deleteMessage w p)) (deletedPids w change)).
Proof.
  unfold deleteFromContentChange_start. run.
  induction (deletedPids w change) as [| p pids IH]; [reflexivity |].
  cbn [forEach map flat_map]. unfold deleteSend at 1. run.
  rewrite sendDelete_run. run.
  destruct (forEach deleteSend pids w) as [[r w1] t1].
  injection IH as -> -> ->. cbn [app]. rewrite !app_nil_r. reflexivity.
Qed.

Lemma deleteResume_all v : forall pids w,
  with_this (with_crdt (crdt (this v))) w = v ->
  mapSettle deleteResume (map (deleteOutcome v) pids) w =
    (Fulfilled (map (fun p => snd (deleteOutcome v p)) pids),
     with_this (with_crdt (deleteAll (crdt (this w)) (filter (deleteAccepted v) pids))) w,
     []).
Proof.
  induction pids as [| p pids IH]; intros w Hw.
  - cbn. destruct w as [[]]; reflexivity.
  - cbn [map mapSettle filter]. unfold deleteResume at 1, deleteOutcome at 1.
    unfold deleteAccepted at 1, accepted. cbn [fst snd].
    destruct (validateMessage (deleteMessage v p)) as [e |] eqn:Ev.
    + run. rewrite (IH w Hw). unfold deleteOutcome at 2. cbn [snd]. rewrite Ev.
      reflexivity.
    + unfold crdtDelete. run. change (fst (deleteOutcome v p)) with p.
      rewrite (IH (with_this (with_crdt (snd (crdt_delete (crdt (this w)) p))) w) Hw).
      unfold deleteOutcome at 2. cbn [snd]. rewrite Ev. reflexivity.
Qed.

Lemma deleteFromContentChange_run change w :
  exists r,
    deleteFromContentChange change w =
      (r,
       with_this (with_crdt (deleteAll (crdt (this w))
                               (filter (deleteAccepted w) (deletedPids w change)))) w,
       flat_map (fun p => sendEffects (deleteMessage w p)) (deletedPids w change)) /\
    (r = Fulfilled tt <->
     Forall (fun p => validateMessage (deleteMessage w p) = None) (deletedPids w change)).
Proof.
  destruct (awaitAll_run _ (fun p => validateMessage (deleteMessage w p))
              (deletedPids w change)
              (with_this (with_crdt (deleteAll (crdt (this w))
                                       (filter (deleteAccepted w) (deletedPids w change)))) w))
    as (r & Ea & Hr).
  exists r. split; [| exact Hr].
  unfold deleteFromContentChange, deleteFromContentChange_finish. run.
  rewrite deleteFromContentChange_start_run.
  rewrite deleteResume_all by (destruct w as [[]]; reflexivity).
  unfold deleteOutcome. cbn [snd]. rewrite Ea, !app_nil_r. reflexivity.
Qed.

Lemma flat_map_through A B C (f : A -> B) (g : B -> list C) (l : list A) :
  flat_map (fun a => g (f a)) l = flat_map g (map f l).
Proof. induction l as [| a l IH]; cbn; [| rewrite IH]; reflexivity. Qed.

Lemma filter_through A B (f : A -> B) (g : B -> bool) (l : list A) :
  filter g (map f l) = map f (filter (fun a => g (f a)) l).
Proof.
  induction l as [| a l IH]; [reflexivity |].
  cbn [map filter]. destruct (g (f a)); cbn [map]; rewrite IH; reflexivity.
Qed.

(** X2. A deletion sends, for the PIDs at the offsets of the range and
    in their order, the DELETEs that the validator accepts, each with the
    character that the CRDT held before any of them was deleted; the PIDs
    deleted from the CRDT are those whose DELETE was accepted, a refused
    one staying in place; the promise is fulfilled when all were
    accepted; nothing of the session but the CRDT is written. *)
Theorem deleteFromContentChange_deletes_accepted change w :
  let pids := deletedPids w change in
  let r := deleteFromContentChange change w in
  validations (effects r) = map (deleteMessage w) pids /\
  wire (effects r) = map (deleteMessage w) (filter (deleteAccepted w) pids) /\
  world r = with_this (with_crdt (deleteAll (crdt (this w))
                                    (filter (deleteAccepted w) pids))) w /\
  (outcome r = Fulfilled tt <-> forallb (deleteAccepted w) pids = true).
Proof.
  cbv zeta. destruct (deleteFromContentChange_run change w) as (r & E & Hr).
  rewrite E. unfold effects, world, outcome. cbn [fst snd].
  rewrite (flat_map_through _ _ _ (deleteMessage w) sendEffects).
  rewrite validations_sendEffects, wire_sendEffects_all, filter_through.
  split; [reflexivity |]. split; [reflexivity |].
  split; [reflexivity |].
  rewrite Hr, forallb_forall, Forall_forall. unfold deleteAccepted, accepted.
  split; intros F p Hp; specialize (F p Hp);
    destruct (validateMessage (deleteMessage w p)); congruence.
Qed.

(** X3. A replace whose deletion has a DELETE refused by the validator
    stops there: the event is rejected, and no INSERT is validated or
    sent and no PID generated for the new text. *)
Theorem replace_with_refused_delete change w :
  0 < rangeLength change ->
  isDeleteEcho (activeEdit (this w)) change = false ->
  forallb (deleteAccepted w) (deletedPids w change) = false ->
  handleTextChange (mkEvent (document (this w)) [change]) w =
    deleteFromContentChange change w /\
  validations (effects (handleTextChange (mkEvent (document (this w)) [change]) w)) =
    map (deleteMessage w) (deletedPids w change) /\
  exists e,
    outcome (handleTextChange (mkEvent (document (this w)) [change]) w) = Rejected e.
Proof.
  intros Hl He Hf.
  destruct (deleteFromContentChange_run change w) as (r & E & Hr).
  assert (R : exists e, r = Rejected e).
  { destruct r as [[] | e]; [| eauto]. exfalso.
    assert (F : forallb (deleteAccepted w) (deletedPids w change) = true).
    { apply forallb_forall. intros p Hp. unfold deleteAccepted, accepted.
      rewrite (proj1 (Forall_forall _ _) (proj1 Hr eq_refl) p Hp). reflexivity. }
    congruence. }
  destruct R as [e ->].
  assert (G : handleTextChange (mkEvent (document (this w)) [change]) w =
              deleteFromContentChange change w).
  { rewrite handleTextChange_single. unfold handleChange. run.
    replace (rangeLength change =? 0) with false by (symmetry; apply Z.eqb_neq; lia).
    replace (0 <? rangeLength change) with true by (symmetry; apply Z.ltb_lt; lia).
    rewrite He, E. reflexivity. }
  rewrite G, E. unfold effects, outcome. cbn [fst snd].
  split; [reflexivity |]. split; [| eauto].
  rewrite (flat_map_through _ _ _ (deleteMessage w) sendEffects).
  apply validations_sendEffects.
Qed.


(** X4. A change that deletes a range and inserts nothing is the
    deletion alone: nothing is generated or inserted. *)
Theorem pure_deletion change w :
  0 < rangeLength change ->
  isDeleteEcho (activeEdit (this w)) change = false ->
  text change = ""%string ->
  handleTextChange (mkEvent (document (this w)) [change]) w =
    deleteFromContentChange change w.
Proof.
  intros Hl He Ht. rewrite handleTextChange_single. unfold handleChange.
  assert (N : forall v, insertFromContentChange change v = (Fulfilled tt, v, [])).
  { intros v. unfold insertFromContentChange. rewrite Ht. reflexivity. }
  revert N. generalize (insertFromContentChange change) (deleteFromContentChange change).
  intros ins del N. run.
  replace (rangeLength change =? 0) with false by (symmetry; apply Z.eqb_neq; lia).
  replace (0 <? rangeLength change) with true by (symmetry; apply Z.ltb_lt; lia).
  rewrite He. destruct (del w) as [[[[] | e] w1] t1]; [| reflexivity].
  rewrite N, app_nil_r. reflexivity.
Qed.

(** *** Echoes of remote operations *)

Lemma Position_eqb_refl p : Position_eqb p p = true.
Proof. unfold Position_eqb. rewrite !Z.eqb_refl. reflexivity. Qed.

Lemma isEqual_refl r : isEqual r r = true.
Proof. unfold isEqual. rewrite !Position_eqb_refl. reflexivity. Qed.

(** What the editor does with an insertion. *)
Lemma editInsert_run pos c v :
  c <> ""%string ->
  let o := offsetAt (docText v) pos in
  let p := positionAt (docText v) o in
  let v1 := with_docText (insertText (docText v) o c) v in
  let r := handleChange (mkChange (mkRange p p) o 0 c) v1 in
  editInsert pos c v =
    if textListener v then (Fulfilled tt, world r, EditInsert pos c :: effects r)
    else (Fulfilled tt, v1, [EditInsert pos c]).
Proof.
  intros Hc. cbv zeta. unfold editInsert, fire.
  pose proof (handleTextChange_single
                (mkChange (mkRange (positionAt (docText v) (offsetAt (docText v) pos))
                                   (positionAt (docText v) (offsetAt (docText v) pos)))
                          (offsetAt (docText v) pos) 0 c)
                (with_docText (insertText (docText v) (offsetAt (docText v) pos) c) v)) as S.
  change (document (this (with_docText _ v))) with (document (this v)) in S.
  revert S. generalize handleTextChange. intros handle S. run.
  destruct (String.eqb_spec c ""); [contradiction |].
  cbn [textListener with_docText]. destruct (textListener v); [| reflexivity].
  rewrite S. unfold world, effects.
  destruct (handleChange _ _) as [[r v'] t']. reflexivity.
Qed.

(** The echo of a remote insertion on the first line is recognised. *)
Lemma editInsert_echo pos c v :
  c <> ""%string ->
  activeEdit (this v) = Some (mkActiveEdit insert (mkRange pos pos) c) ->
  offsetAt (docText v) pos = character pos ->
  editInsert pos c v =
    (Fulfilled tt, with_docText (insertText (docText v) (character pos) c) v,
     [EditInsert pos c]).
Proof.
  intros Hc Ha Ho. rewrite (editInsert_run pos c v Hc). cbv zeta. rewrite Ho.
  unfold handleChange. run. cbn [rangeLength rangeOffset activeEdit this with_docText].
  rewrite Ha. cbn. rewrite Z.eqb_refl.
  destruct (textListener v); reflexivity.
Qed.

(** X5. A remote INSERT that lands on the first line of the document is
    applied once: the CRDT takes the insertion, the editor the edit, the
    echo of the edit is discarded, and nothing is generated or sent. *)
Theorem remote_insert_on_first_line pid c sender w :
  hasEditor w = true ->
  c <> ""%string ->
  let inserted := crdt_insert (crdt (this w)) pid c in
  let pos := positionAt (docText w) (fst inserted - 2) in
  line pos = 0 ->
  handleRemoteInsert pid c sender w =
    (Fulfilled tt,
     with_this (with_activeEdit None)
       (with_docText (insertText (docText w) (character pos) c)
          (with_this (with_crdt (snd inserted)) w)),
     [EditInsert pos c]).
Proof.
  intros Hv Hc inserted pos Hl.
  assert (Ho : offsetAt (docText w) pos = character pos).
  { destruct (positionAt_facts (docText w) (fst inserted - 2)) as (F1 & _ & _ & _ & F5 & _).
    cbv zeta in F1, F5. fold pos in F1, F5. rewrite F1, (F5 Hl). reflexivity. }
  pose proof editInsert_echo as Echo. revert Echo.
  unfold handleRemoteInsert, crdtInsert, editor. generalize editInsert. intros edit Echo.
  run.
  repeat match goal with
  | |- context [hasEditor ?v] => progress change (hasEditor v) with (hasEditor w)
  end.
  rewrite Hv. fold inserted. fold pos.
  rewrite Echo; [reflexivity | exact Hc | reflexivity | exact Ho].
Qed.

(** X6. A remote INSERT that lands on another line is taken for an
    edit of the user: the echo is compared by its offset with the column
    of the marker, which differ there, so that after the edit one INSERT
    is attempted for each character of the remote text. *)
Theorem remote_insert_on_later_line pid c sender w :
  hasEditor w = true ->
  textListener w = true ->
  c <> ""%string ->
  let inserted := crdt_insert (crdt (this w)) pid c in
  let pos := positionAt (docText w) (fst inserted - 2) in
  0 < line pos ->
  exists pids,
    List.length pids = List.length (split c) /\
    effects (handleRemoteInsert pid c sender w) =
      EditInsert pos c ::
      flat_map sendEffects (map (insertMessage w) (combine pids (split c))).
Proof.
  intros Hv Ht Hc inserted pos Hl.
  destruct (positionAt_facts (docText w) (fst inserted - 2))
    as (F1 & F2 & _ & _ & _ & F6).
  cbv zeta in F1, F2, F6. fold pos in F1, F2, F6. specialize (F6 Hl).
  set (marked := with_this (with_activeEdit (Some (mkActiveEdit insert (mkRange pos pos) c)))
                   (with_this (with_crdt (snd inserted)) w)).
  set (o := offsetAt (docText w) pos) in *.
  set (v1 := with_docText (insertText (docText w) o c) marked).
  set (change := mkChange (mkRange (positionAt (docText w) o) (positionAt (docText w) o))
                          o 0 c).
  destruct (insertFromContentChange_run change v1) as (pids & Hn & He & _ & _).
  exists pids. split; [exact Hn |].
  assert (E : editInsert pos c marked =
              (Fulfilled tt, world (insertFromContentChange change v1),
               EditInsert pos c :: effects (insertFromContentChange change v1))).
  { rewrite (editInsert_run pos c marked Hc). cbv zeta.
    change (textListener marked) with (textListener w). rewrite Ht.
    change (docText marked) with (docText w). fold o. fold v1. fold change.
    assert (C : handleChange change v1 = insertFromContentChange change v1).
    { unfold handleChange. run. cbn [rangeLength change Z.eqb].
      replace (isInsertEcho (activeEdit (this v1)) change) with false.
      - destruct (insertFromContentChange change v1) as [[? ?] ?]. reflexivity.
      - symmetry. cbn. apply Z.eqb_neq. lia. }
    rewrite C. reflexivity. }
  assert (R : handleRemoteInsert pid c sender w =
              (Fulfilled tt,
               with_this (with_activeEdit None) (world (insertFromContentChange change v1)),
               EditInsert pos c :: effects (insertFromContentChange change v1))).
  { revert E. unfold handleRemoteInsert, crdtInsert, editor. generalize editInsert.
    intros edit E. run.
    repeat match goal with
    | |- context [hasEditor ?v] => progress change (hasEditor v) with (hasEditor w)
    | |- context [docText ?v] => progress change (docText v) with (docText w)
    end.
    rewrite Hv. fold inserted. fold pos. fold marked. rewrite E.
    cbn [app]. rewrite ?app_nil_r. reflexivity. }
  rewrite R. unfold effects at 1. cbn [snd]. rewrite He. reflexivity.
Qed.

(** What the editor does with the deletion of one column at the position
    of an offset, under the marker of that deletion: the echo, if any, is
    recognised. *)
Lemma editDelete_echo z v :
  let pos := positionAt (docText v) z in
  let r := mkRange pos (translate pos 0 1) in
  let n := Z.of_nat (clamp (docText v) z) in
  activeEdit (this v) = Some (mkActiveEdit delete r "") ->
  exists txt,
    editDelete r v = (Fulfilled tt, with_docText txt v, [EditDelete r]) /\
    (txt = docText v \/ txt = deleteText (docText v) n 1) /\
    (offsetAt (docText v) (translate pos 0 1) = n + 1 -> txt = deleteText (docText v) n 1).
Proof.
  cbv zeta. intros Ha.
  destruct (positionAt_facts (docText v) z) as (F1 & F2 & _). cbv zeta in F1, F2.
  pose proof (next_column (docText v) z) as N. cbv zeta in N.
  set (pos := positionAt (docText v) z) in *.
  set (n := Z.of_nat (clamp (docText v) z)) in *.
  unfold editDelete, fire.
  pose proof (handleTextChange_single
                (mkChange (mkRange pos (translate pos 0 1)) n 1 "")
                (with_docText (deleteText (docText v) n 1) v)) as S.
  change (document (this (with_docText _ v))) with (document (this v)) in S.
  assert (C : handleChange (mkChange (mkRange pos (translate pos 0 1)) n 1 "")
                (with_docText (deleteText (docText v) n 1) v)
              = (Fulfilled tt, with_docText (deleteText (docText v) n 1) v, [])).
  { unfold handleChange. run. cbn [rangeLength Z.eqb Z.ltb Z.compare].
    cbn [activeEdit this with_docText]. rewrite Ha.
    cbn [isDeleteEcho kind ae_range range text]. rewrite isEqual_refl. reflexivity. }
  rewrite C in S. revert S. generalize handleTextChange. intros handle S. run.
  cbn [start end_]. rewrite F1.
  destruct N as [N | [N P]]; rewrite N.
  - replace (n <=? n) with true by (symmetry; apply Z.leb_le; lia).
    exists (docText v). split; [| split; [auto | intros; lia]].
    destruct v as [[]]; reflexivity.
  - replace (n + 1 <=? n) with false by (symmetry; apply Z.leb_gt; lia).
    exists (deleteText (docText v) n 1). split; [| split; [auto | reflexivity]].
    rewrite F2, P. replace (n + 1 - n) with 1 by lia.
    cbn [textListener with_docText]. destruct (textListener v); [| reflexivity].
    rewrite S. reflexivity.
Qed.

(** What [handleRemoteDelete] does with an editor in sight. *)
Lemma handleRemoteDelete_run pid c sender w :
  hasEditor w = true ->
  let deleted := crdt_delete (crdt (this w)) pid in
  let pos := positionAt (docText w) (fst deleted - 2) in
  let r := mkRange pos (translate pos 0 1) in
  let n := Z.of_nat (clamp (docText w) (fst deleted - 2)) in
  let marked := with_this (with_activeEdit (Some (mkActiveEdit delete r "")))
                  (with_this (with_crdt (snd deleted)) w) in
  exists txt,
    handleRemoteDelete pid c sender w =
      (Fulfilled tt, with_docText txt marked, [EditDelete r]) /\
    (txt = docText w \/ txt = deleteText (docText w) n 1) /\
    (offsetAt (docText w) (translate pos 0 1) = n + 1 -> txt = deleteText (docText w) n 1).
Proof.
  intros Hv deleted pos r n marked.
  destruct (editDelete_echo (fst deleted - 2) marked eq_refl) as (txt & E & Ht & Hd).
  change (docText marked) with (docText w) in *. fold pos in E, Hd. fold r in E. fold n in Ht, Hd.
  exists txt. split; [| split; assumption].
  revert E. unfold handleRemoteDelete, crdtDelete, editor. generalize editDelete.
  intros edit E. run.
  repeat match goal with
  | |- context [hasEditor ?v] => progress change (hasEditor v) with (hasEditor w)
  | |- context [docText ?v] => progress change (docText v) with (docText w)
  end.
  rewrite Hv. fold deleted. fold pos. fold r. fold marked. rewrite E. reflexivity.
Qed.

(** X7. A remote DELETE is applied once, whatever it deletes: the CRDT
    takes the deletion, the editor the edit, the echo of the edit, if
    any, is discarded, and nothing is sent. *)
Theorem remote_delete_is_not_sent_again pid c sender w :
  hasEditor w = true ->
  let deleted := crdt_delete (crdt (this w)) pid in
  let pos := positionAt (docText w) (fst deleted - 2) in
  let r := handleRemoteDelete pid c sender w in
  effects r = [EditDelete (mkRange pos (translate pos 0 1))] /\
  crdt (this (world r)) = snd deleted /\
  (docText (world r) = docText w \/
   docText (world r) =
     deleteText (docText w) (Z.of_nat (clamp (docText w) (fst deleted - 2))) 1).
Proof.
  intros Hv deleted pos. cbv zeta.
  destruct (handleRemoteDelete_run pid c sender w Hv) as (txt & R & Ht & _).
  rewrite R. unfold effects, world. cbn [fst snd].
  split; [reflexivity |]. split; [reflexivity |]. exact Ht.
Qed.

Lemma substring_all s : substring 0 (String.length s) s = s.
Proof. induction s as [| a s IH]; cbn; [| rewrite IH]; reflexivity. Qed.

(** X15. A remote DELETE for which the CRDT answers an index of 2 or
    less removes the first character of the document: the index less 2
    is clamped to the start of the text.  The index is 2 for the first
    character, and less for a PID that holds no character of the text. *)
Theorem remote_delete_of_low_index pid c sender a rest w :
  hasEditor w = true ->
  fst (crdt_delete (crdt (this w)) pid) <= 2 ->
  docText w = String a rest ->
  is_newline a = false ->
  let r := handleRemoteDelete pid c sender w in
  docText (world r) = rest /\
  effects r = [EditDelete (mkRange (mkPosition 0 0) (mkPosition 0 1))].
Proof.
  intros Hv Hi Hs Ha. cbv zeta.
  destruct (handleRemoteDelete_run pid c sender w Hv) as (txt & R & _ & Hd).
  cbv zeta in R, Hd.
  assert (Z0 : Z.to_nat (fst (crdt_delete (crdt (this w)) pid) - 2) = 0%nat) by lia.
  assert (P : positionAt (docText w) (fst (crdt_delete (crdt (this w)) pid) - 2)
              = mkPosition 0 0).
  { unfold positionAt. rewrite Z0. destruct (docText w); reflexivity. }
  assert (N : clamp (docText w) (fst (crdt_delete (crdt (this w)) pid) - 2) = 0%nat).
  { unfold clamp. rewrite Z0. reflexivity. }
  rewrite P, N in *.
  rewrite R. unfold world, effects. cbn [fst snd docText with_docText].
  split; [| reflexivity].
  rewrite Hd.
  - rewrite Hs. unfold deleteText.
    change (Z.to_nat (Z.of_nat 0)) with 0%nat. change (Z.to_nat 1) with 1%nat.
    cbn [Nat.add String.length substring append Nat.sub].
    rewrite ?Nat.sub_0_r. apply substring_all.
  - rewrite Hs. change (translate (mkPosition 0 0) 0 1) with (mkPosition 0 1).
    unfold offsetAt. cbn [line character].
    change (Z.to_nat 0) with 0%nat. change (Z.to_nat 1) with 1%nat.
    cbn [offsetAt_from]. rewrite Ha. destruct rest; reflexivity.
Qed.

(* ------------------------------------------------------------------ *)
(** ** Invariants of the handlers

    What every handler keeps and performs, for an invariant [I] of the
    world that no field update of the handlers breaks and a property [T]
    of traces that holds of the effects other than a send and of the
    sending of a message of the client. *)

Section Handlers.

Variable I : World -> Prop.
Variable T : list Effect -> Prop.
Hypothesis T_nil : T [].
Hypothesis T_app : forall t1 t2, T t1 -> T t2 -> T (t1 ++ t2).
Hypothesis T_quiet : forall e, isSend e = false -> T [e].
Hypothesis T_send : forall m, isOutbound m = true -> T [Validate m; WsSend m].

Hypothesis I_crdt : forall v w, I w -> I (with_this (with_crdt v) w).
Hypothesis I_activeEdit : forall v w, I w -> I (with_this (with_activeEdit v) w).
Hypothesis I_clientId : forall v w, I w -> I (with_this (with_clientId v) w).
Hypothesis I_buffer : forall n b w, I w -> I (with_this (with_buffer n b) w).
Hypothesis I_docText : forall s w, I w -> I (with_docText s w).
Hypothesis I_visible : forall l w, I w -> I (with_visible l w).
Hypothesis I_textListener : forall w, I w -> I (with_textListener false w).
Hypothesis I_socketListeners : forall w, I w -> I (with_socketListeners false w).

Lemma kept_sendMessage m : isOutbound m = true -> respects I T (sendMessage m).
Proof.
  intros Hm. apply respects_sendMessage.
  - intros e _. apply T_quiet. reflexivity.
  - intros _. apply T_send, Hm.
Qed.

Lemma kept_emit e : isSend e = false -> respects I T (emit e).
Proof. intros He. apply respects_emit, T_quiet, He. Qed.

Lemma kept_handleTextChange e : respects I T (handleTextChange e).
Proof.
  apply respects_handleTextChange; auto;
    intros; (split; [intros e' _; apply T_quiet | intros _; apply T_send]); reflexivity.
Qed.

Ltac kept_leaf :=
  first [ apply kept_sendMessage; reflexivity
        | apply kept_handleTextChange
        | apply kept_emit; reflexivity
        | apply respects_modify; [assumption .. | intros; auto]
        | assumption ].

Ltac kept_tac := repeat respects_step; try kept_leaf.

Lemma kept_close : respects I T close.
Proof. unfold close. kept_tac. Qed.

Lemma kept_editor : respects I T editor.
Proof. unfold editor, close. kept_tac. Qed.

Lemma kept_editInsert pos t : respects I T (editInsert pos t).
Proof. unfold editInsert, fire. kept_tac. Qed.

Lemma kept_editDelete r : respects I T (editDelete r).
Proof. unfold editDelete, fire. kept_tac. Qed.

Lemma kept_handleText op sender : respects I T (handleText op sender).
Proof.
  unfold handleText, handleRemoteInsert, handleRemoteDelete, crdtInsert, crdtDelete,
    setThis.
  kept_tac; first [apply kept_editor | apply kept_editInsert | apply kept_editDelete].
Qed.

Lemma kept_handleAvailableMessage isFirst site sessionShare :
  respects I T (handleAvailableMessage isFirst site sessionShare).
Proof.
  unfold handleAvailableMessage, requestInitialBuffer, setThis, close. kept_tac.
Qed.

Lemma kept_handleInitialMessage name buf uids lines :
  respects I T (handleInitialMessage name buf uids lines).
Proof.
  unfold handleInitialMessage, setThis. kept_tac. apply kept_editInsert.
Qed.

Lemma kept_handleMessage json : respects I T (handleMessage json).
Proof.
  unfold handleMessage. kept_tac;
    first [ apply kept_handleText
          | apply kept_handleAvailableMessage
          | apply kept_handleInitialMessage ].
Qed.

Lemma kept_onMessage json : respects I T (onMessage json).
Proof. unfold onMessage. kept_tac. apply kept_handleMessage. Qed.

Lemma kept_onOpen : respects I T onOpen.
Proof. unfold onOpen, sendInfo. kept_tac. Qed.

End Handlers.

(** X8. Whatever message arrives, whatever the user edits and when the
    socket opens, a session keeps its role, its document, the configured
    user name and the registry [Client.sockets]: in particular a session
    that closed itself stays registered. *)
Theorem session_keeps_role_and_document w :
  let same (v : World) :=
    isHost (this v) = isHost (this w) /\
    document (this v) = document (this w) /\
    username v = username w /\
    sockets v = sockets w in
  (forall json, same (world (onMessage json w))) /\
  (forall json, same (world (handleMessage json w))) /\
  (forall e, same (world (handleTextChange e w))) /\
  same (world (onOpen w)).
Proof.
  cbv zeta.
  set (same := fun v : World =>
                 isHost (this v) = isHost (this w) /\
                 document (this v) = document (this w) /\
                 username v = username w /\
                 sockets v = sockets w).
  assert (S : same w) by (repeat split).
  assert (K : forall A (m : M A),
             respects same (fun _ => True) m -> same (world (m w))).
  { intros A m Hm. exact (proj1 (Hm w S)). }
  repeat split; try intros x; apply K;
    first [ apply kept_onMessage | apply kept_handleMessage
          | apply kept_handleTextChange | apply kept_onOpen ];
    auto.
Qed.

(** X9. The client writes to the socket only messages that it builds:
    INFO without session share, REQUEST, and TEXT with an INSERT or a
    DELETE. *)
Theorem only_client_messages_are_sent w :
  let client (t : list Effect) := forallb isOutbound (wire t) = true in
  (forall json, client (effects (onMessage json w))) /\
  (forall json, client (effects (handleMessage json w))) /\
  (forall e, client (effects (handleTextChange e w))) /\
  client (effects (onOpen w)).
Proof.
  cbv zeta.
  set (client := fun t : list Effect => forallb isOutbound (wire t) = true).
  assert (K : forall A (m : M A),
             respects (fun _ => True) client m -> client (effects (m w))).
  { intros A m Hm. exact (proj2 (Hm w Logic.I)). }
  assert (Happ : forall t1 t2, client t1 -> client t2 -> client (t1 ++ t2)).
  { unfold client. intros t1 t2 H1 H2. rewrite wire_app, forallb_app, H1, H2. reflexivity. }
  assert (Hq : forall e, isSend e = false -> client [e]).
  { intros [] He; try reflexivity. discriminate He. }
  assert (Hs : forall m, isOutbound m = true -> client [Validate m; WsSend m]).
  { unfold client. intros m Hm. cbn. rewrite Hm. reflexivity. }
  repeat split; try intros x; apply K;
    first [ apply kept_onMessage | apply kept_handleMessage
          | apply kept_handleTextChange | apply kept_onOpen ];
    auto; reflexivity.
Qed.

(** X10. No handler attaches a listener: the listeners of the socket and
    of the document, once detached, stay detached through every message,
    edit and opening of the socket. *)
Theorem listeners_are_never_attached w :
  let detached (v : World) :=
    implb (textListener v) (textListener w) = true /\
    implb (socketListeners v) (socketListeners w) = true in
  (forall json, detached (world (onMessage json w))) /\
  (forall json, detached (world (handleMessage json w))) /\
  (forall e, detached (world (handleTextChange e w))) /\
  detached (world (onOpen w)).
Proof.
  cbv zeta.
  set (detached := fun v : World =>
                     implb (textListener v) (textListener w) = true /\
                     implb (socketListeners v) (socketListeners w) = true).
  assert (S : detached w).
  { split; [destruct (textListener w) | destruct (socketListeners w)]; reflexivity. }
  assert (K : forall A (m : M A),
             respects detached (fun _ => True) m -> detached (world (m w))).
  { intros A m Hm. exact (proj1 (Hm w S)). }
  repeat split; try intros x; apply K;
    first [ apply kept_onMessage | apply kept_handleMessage
          | apply kept_handleTextChange | apply kept_onOpen ];
    auto; intros v [H1 H2]; split; auto.
Qed.

(* ------------------------------------------------------------------ *)
(** ** Messages, sessions and the snapshot *)

(** X11. A message that reaches no handler leaves the session as it is
    and sends nothing: one that is not TEXT, AVAILABLE or INITIAL is
    reported to the user as unhandled when the validator accepts it, and
    a TEXT with an operation other than INSERT and DELETE is dropped
    without a word. *)
Theorem message_without_handler json w :
  isHandled json = false ->
  handleMessage json w =
    match validateMessage json with
    | Some e => (Rejected e, w, [Validate json])
    | None =>
        (Fulfilled tt, w,
         Validate json :: if hasCase json then [] else [ShowUnhandledMessage json])
    end.
Proof.
  intros Hj. unfold handleMessage, handleText. run.
  destruct (validateMessage json); [reflexivity |].
  destruct json as [[] | | | | |]; try discriminate Hj; reflexivity.
Qed.

(** X12. A host session hears nothing: its set-up failed before any
    listener was put on the socket, so that no message of the server
    reaches a handler and no INFO is sent when the socket opens, while
    the edits of the user are still listened to, by a client that has
    neither a client id nor a buffer. *)
Theorem host_session_hears_nothing document env :
  let w := world (create document true env) in
  (forall json, onMessage json w = (Fulfilled tt, w, [])) /\
  onOpen w = (Fulfilled tt, w, []) /\
  textListener w = true /\
  clientId (this w) = None /\ buffer (this w) = None.
Proof. cbv zeta. repeat split. Qed.

(** X13. A guest session is created with both listeners in place and
    registered under its document, without anything sent; when its
    socket opens it introduces itself with one INFO, carrying the
    configured user name and the agent of VS Code and asking for no
    session share. *)
Theorem guest_session_introduces_itself document env :
  let w := mkWorld (newClient false document) (docText env) (visibleTextEditors env)
                   (username env) true true (document :: sockets env) in
  create document false env = (Fulfilled tt, w, []) /\
  onOpen w = (Fulfilled tt, w, sendEffects (MSG_INFO false (username env) VSCODE_AGENT)).
Proof.
  cbv zeta. split; [reflexivity |].
  unfold onOpen, sendInfo, sendMessage, sendEffects. run.
  cbn [socketListeners username].
  destruct (validateMessage _); reflexivity.
Qed.

(** X14. The snapshot of INITIAL is typed back to the server: it is
    inserted at the start of whatever the document holds, no marker
    announces the edit, and its echo is handled as an insertion of the
    user, one INSERT being attempted for each character of the
    snapshot. *)
Theorem initial_snapshot_is_sent_back name buf uids lines w :
  textListener w = true ->
  activeEdit (this w) = None ->
  let snapshot := asString (initialize (crdt (this w)) (snd buf) uids lines) in
  let named := with_this (with_buffer (Some name) (Some buf)) w in
  snapshot <> ""%string ->
  let r := handleInitialMessage name buf uids lines w in
  docText (world r) = insertText (docText w) 0 snapshot /\
  exists pids,
    List.length pids = List.length (split snapshot) /\
    effects r =
      ShowTextDocument (document (this w)) ::
      EditInsert (mkPosition 0 0) snapshot ::
      flat_map sendEffects (map (insertMessage named) (combine pids (split snapshot))).
Proof.
  intros Ht Ha snapshot named Hs. cbv zeta.
  set (shown := with_visible (document (this w) :: visibleTextEditors w)
                  (with_this (with_crdt (initialize (crdt (this w)) (snd buf) uids lines))
                     named)).
  assert (O : offsetAt (docText w) (mkPosition 0 0) = 0)
    by (unfold offsetAt; destruct (docText w); reflexivity).
  assert (P : positionAt (docText w) 0 = mkPosition 0 0)
    by (unfold positionAt; destruct (docText w); reflexivity).
  set (v1 := with_docText (insertText (docText w) 0 snapshot) shown).
  set (change := mkChange (mkRange (mkPosition 0 0) (mkPosition 0 0)) 0 0 snapshot).
  destruct (insertFromContentChange_run change v1) as (pids & Hn & He & _ & Hw).
  assert (E : editInsert (mkPosition 0 0) snapshot shown =
              (Fulfilled tt, world (insertFromContentChange change v1),
               EditInsert (mkPosition 0 0) snapshot ::
               effects (insertFromContentChange change v1))).
  { rewrite (editInsert_run (mkPosition 0 0) snapshot shown Hs). cbv zeta.
    change (textListener shown) with (textListener w). rewrite Ht.
    change (docText shown) with (docText w). rewrite O, P. fold v1. fold change.
    assert (C : handleChange change v1 = insertFromContentChange change v1).
    { unfold handleChange. run. cbn [rangeLength change Z.eqb].
      change (activeEdit (this v1)) with (activeEdit (this w)). rewrite Ha.
      cbn [isInsertEcho].
      destruct (insertFromContentChange change v1) as [[? ?] ?]. reflexivity. }
    rewrite C. reflexivity. }
  assert (R : handleInitialMessage name buf uids lines w =
              (Fulfilled tt, world (insertFromContentChange change v1),
               ShowTextDocument (document (this w)) ::
               EditInsert (mkPosition 0 0) snapshot ::
               effects (insertFromContentChange change v1))).
  { revert E. unfold handleInitialMessage. generalize editInsert. intros edit E. run.
    repeat match goal with
    | |- context [edit ?p ?t ?v] =>
        progress change (edit p t v) with (edit (mkPosition 0 0) snapshot shown)
    end.
    rewrite E. reflexivity. }
  rewrite R. unfold world at 1, effects at 1. cbn [fst snd]. split.
  - exact (f_equal docText Hw).
  - exists pids. split; [exact Hn |]. rewrite He. reflexivity.
Qed.

(* ------------------------------------------------------------------ *)
(** ** Events with several changes *)

Lemma insertFromContentChange_activeEdit change w :
  activeEdit (this (world (insertFromContentChange change w))) = activeEdit (this w).
Proof.
  destruct (insertFromContentChange_run change w) as (pids & _ & _ & _ & Hw).
  exact (f_equal (fun v => activeEdit (this v)) Hw).
Qed.

(** The callback of an insertion that is no echo settles in the first
    phase. *)
Lemma changeStart_insertion change w :
  (rangeLength change =? 0) = true ->
  isInsertEcho (activeEdit (this w)) change = false ->
  changeStart change w =
    (Fulfilled (Settled (outcome (insertFromContentChange change w))),
     world (insertFromContentChange change w),
     effects (insertFromContentChange change w)).
Proof.
  intros Hl He. unfold changeStart. generalize (insertFromContentChange change).
  intros m. run. rewrite Hl, He. unfold outcome, world, effects.
  destruct (m w) as [[r w1] t1]. cbn. rewrite ?app_nil_r. reflexivity.
Qed.

Lemma changeStart_insertions changes : forall w,
  forallb (fun change => (rangeLength change =? 0) &&
                         negb (isInsertEcho (activeEdit (this w)) change)) changes = true ->
  exists rs w' t,
    mapSettle insertFromContentChange changes w = (Fulfilled rs, w', t) /\
    forEach changeStart changes w = (Fulfilled (map Settled rs), w', t).
Proof.
  induction changes as [| change changes IH]; intros w Hc.
  - exists [], w, []. split; reflexivity.
  - cbn [forallb] in Hc. apply andb_prop in Hc. destruct Hc as [Hc Hcs].
    apply andb_prop in Hc. destruct Hc as [Hl He].
    apply negb_true_iff in He.
    pose proof (insertFromContentChange_activeEdit change w) as Ha.
    pose proof (changeStart_insertion change w Hl He) as S.
    cbn [mapSettle forEach]. revert S Ha.
    generalize (changeStart change) (insertFromContentChange change). intros st m S Ha.
    unfold bind at 1 3, settle. rewrite S.
    unfold world, outcome, effects in *. destruct (m w) as [[r w1] t1]. cbn [fst snd] in *.
    rewrite <- Ha in Hcs. destruct (IH w1 Hcs) as (rs & w' & t & E1 & E2).
    exists (r :: rs), w', (t1 ++ t). unfold bind, ret. rewrite E1, E2.
    cbn [map app]. rewrite ?app_nil_r. split; reflexivity.
Qed.

Lemma changeDeleted_settled rs w :
  forEach changeDeleted (map Settled rs) w = (Fulfilled (map Settled rs), w, []).
Proof.
  induction rs as [| r rs IH]; [reflexivity |].
  cbn [map forEach changeDeleted]. unfold bind, ret. rewrite IH. reflexivity.
Qed.

Lemma pendingInserts_settled rs : forall k, pendingInserts k (map Settled rs) = [].
Proof. induction rs as [| r rs IH]; intros k; [reflexivity | apply IH]. Qed.

Lemma outcomes_settled rs : forall k done, outcomes k (map Settled rs) done = rs.
Proof.
  induction rs as [| r rs IH]; intros k done; [reflexivity |].
  cbn [map outcomes]. rewrite IH. reflexivity.
Qed.

(** X16. The insertions of one event, as typing with several cursors
    gives them, are handled one after the other in the order of the
    event, each to its end before the next starts; an insertion that the
    validator refuses does not stop those after it, and the promise of
    the handler is rejected with the first refusal. *)
Theorem insertions_of_one_event changes w :
  forallb (fun change => (rangeLength change =? 0) &&
                         negb (isInsertEcho (activeEdit (this w)) change)) changes = true ->
  handleTextChange (mkEvent (document (this w)) changes) w =
    (promises <- mapSettle insertFromContentChange changes ;; awaitAll promises) w.
Proof.
  intros Hc. destruct (changeStart_insertions changes w Hc) as (rs & w' & t & E1 & E2).
  unfold handleTextChange. cbn [e_document contentChanges].
  unfold bind at 1, get. rewrite String.eqb_refl. cbn [negb app].
  unfold bind at 1. rewrite E2.
  unfold bind at 1. rewrite changeDeleted_settled.
  unfold resumeOrder. rewrite pendingInserts_settled. cbn [fold_right forEach].
  unfold bind at 1, ret. rewrite outcomes_settled.
  unfold bind at 1. rewrite E1.
  destruct (awaitAll rs w') as [[o v] t']. cbn [app]. rewrite ?app_nil_r. reflexivity.
Qed.

End Further.

(* ------------------------------------------------------------------ *)
(** ** The commands of the extension *)

Section CommandsProperties.

Context `{Platform}.

Lemma hasScheme_ws s : hasScheme ("ws://" ++ s) = true.
Proof. reflexivity. Qed.

Lemma afterLetters_scheme scheme rest :
  letters scheme = true ->
  afterLetters (scheme ++ "://" ++ rest) = ("://" ++ rest)%string.
Proof.
  induction scheme as [| a scheme IH]; intros Hl; [reflexivity |].
  cbn [letters] in Hl. apply andb_prop in Hl. destruct Hl as [Ha Hl].
  cbn [append afterLetters]. rewrite Ha. apply IH, Hl.
Qed.

Lemma letters_split s : exists l, letters l = true /\ s = (l ++ afterLetters s)%string.
Proof.
  induction s as [| a s (l & Hl & Hs)].
  - exists ""%string. split; reflexivity.
  - cbn [afterLetters]. destruct (isLetter a) eqn:Ea.
    + exists (String a l). split; [cbn [letters]; rewrite Ea, Hl; reflexivity |].
      cbn [append]. rewrite <- Hs. reflexivity.
    + exists ""%string. split; reflexivity.
Qed.

Lemma startsWith_spec p : forall s,
  startsWith p s = true -> exists rest, s = (p ++ rest)%string.
Proof.
  induction p as [| a p IH]; intros s Hs.
  - exists s. reflexivity.
  - destruct s as [| b s]; [discriminate Hs |].
    cbn [startsWith] in Hs. apply andb_prop in Hs. destruct Hs as [Hab Hs].
    apply Ascii.eqb_eq in Hab. subst b.
    destruct (IH s Hs) as [rest ->]. exists rest. reflexivity.
Qed.

(** The addresses with a scheme are those that start with one letter or
    more followed by [://]. *)
Lemma hasScheme_spec s :
  hasScheme s = true <->
  exists scheme rest,
    scheme <> ""%string /\ letters scheme = true /\
    s = (scheme ++ "://" ++ rest)%string.
Proof.
  split.
  - destruct s as [| a s]; [discriminate |].
    cbn [hasScheme]. intros Hs. apply andb_prop in Hs. destruct Hs as [Ha Hs].
    destruct (letters_split s) as (l & Hl & El).
    destruct (startsWith_spec _ _ Hs) as [rest Er].
    exists (String a l), rest. split; [discriminate |].
    split; [cbn [letters]; rewrite Ha, Hl; reflexivity |].
    transitivity (String a (l ++ afterLetters s));
      [rewrite <- El; reflexivity | rewrite Er; reflexivity].
  - intros (scheme & rest & Hn & Hl & ->).
    destruct scheme as [| a scheme]; [contradiction |].
    cbn [letters] in Hl. apply andb_prop in Hl. destruct Hl as [Ha Hl].
    change (hasScheme (String a (scheme ++ "://" ++ rest)) = true).
    cbn [hasScheme]. rewrite Ha, (afterLetters_scheme _ _ Hl). reflexivity.
Qed.

(** X17. An address that starts with a scheme, one letter or more
    followed by [://], is given to the URL parser as it is, and any other
    address as a WebSocket address, with [ws://] in front: what the
    parser is given always starts with a scheme, and preparing an address
    twice is preparing it once. *)
Theorem address_is_given_a_scheme s :
  (hasScheme s = true <->
   exists scheme rest,
     scheme <> ""%string /\ letters scheme = true /\
     s = (scheme ++ "://" ++ rest)%string) /\
  (hasScheme s = true -> attachUrl s = s) /\
  (hasScheme s = false -> attachUrl s = ("ws://" ++ s)%string) /\
  hasScheme (attachUrl s) = true /\
  attachUrl (attachUrl s) = attachUrl s.
Proof.
  assert (Hs : hasScheme (attachUrl s) = true).
  { unfold attachUrl. destruct (hasScheme s) eqn:E; [exact E | apply hasScheme_ws]. }
  split; [apply hasScheme_spec |].
  split; [intros E; unfold attachUrl; rewrite E; reflexivity |].
  split; [intros E; unfold attachUrl; rewrite E; reflexivity |].
  split; [exact Hs |].
  unfold attachUrl at 1. rewrite Hs. reflexivity.
Qed.

Lemma created_app (l1 l2 : list Action) : created (l1 ++ l2) = created l1 ++ created l2.
Proof.
  induction l1 as [| a l1 IH]; [reflexivity |].
  destruct a; cbn [app created]; rewrite ?IH; reflexivity.
Qed.

Lemma created_asked d : created (checkUsernameExists d) = [].
Proof. unfold checkUsernameExists. destruct (truthy (configured d)); reflexivity. Qed.

(** X18. Starting a session with no editor in front creates no session,
    although the user gave a good address: a document is opened in place
    of the missing one, but it arrives after its URI was looked for, and
    the command ends on the error. *)
Theorem startSession_needs_an_active_editor d url :
  activeDocument d = None ->
  parseSessionUrl (urlAnswer d) = Fulfilled (Some url) ->
  startSession d =
    (Fulfilled tt,
     checkUsernameExists d ++
     [AskServerUrl; OpenTextDocument;
      ShowError "No active document, and couldn't create a new one"]) /\
  created (snd (startSession d)) = [].
Proof.
  intros Ha Hu.
  assert (E : startSession d =
              (Fulfilled tt,
               checkUsernameExists d ++
               [AskServerUrl; OpenTextDocument;
                ShowError "No active document, and couldn't create a new one"])).
  { unfold startSession, promptServerUrl. cbn [fst snd]. rewrite Hu, Ha.
    rewrite <- app_assoc. reflexivity. }
  split; [exact E |].
  rewrite E. cbn [snd]. rewrite created_app, created_asked. reflexivity.
Qed.

(** X19. A command creates one session at most: [startSession] a host
    on the document of the editor in front, [joinSession] a guest on the
    document that it opens; neither does without a URL. *)
Theorem sessions_of_the_commands d :
  let started := created (snd (startSession d)) in
  let joined := created (snd (joinSession d)) in
  match started with
  | [] => True
  | [(documentUri, url, isHost)] =>
      isHost = true /\ activeDocument d = Some documentUri /\
      parseSessionUrl (urlAnswer d) = Fulfilled (Some url)
  | _ => False
  end /\
  match joined with
  | [] => True
  | [(documentUri, url, isHost)] =>
      isHost = false /\ documentUri = untitled d /\
      parseSessionUrl (urlAnswer d) = Fulfilled (Some url)
  | _ => False
  end.
Proof.
  cbv zeta. unfold startSession, joinSession.
  change (fst (promptServerUrl d)) with (parseSessionUrl (urlAnswer d)).
  destruct (parseSessionUrl (urlAnswer d)) as [[url |] | e] eqn:E;
    cbn [snd promptServerUrl];
    rewrite ?created_app, ?created_asked; cbn [app created]; auto.
  destruct (activeDocument d) as [doc |]; [destruct (doc =? "")%string eqn:D |];
    cbn [snd promptServerUrl];
    rewrite ?created_app, ?created_asked; cbn [app created]; auto.
Qed.

End CommandsProperties.

(* ------------------------------------------------------------------ *)
(** ** The statements on the sessions of the specification *)

Import Sessions.

(** C1. The guest holds "abc" and types "x" between "a" and "b".  The
    PID before the insertion point is that of "a" and the PID at the
    insertion point that of "b"; the handler takes instead the
    document-start sentinel and the PID of "c", the first and the last of
    the index.  The PID it generates sorts before the first-line
    sentinel: the INSERT sent carries it, and the CRDT now reads "xabc"
    while the document reads "axbc". *)
Theorem typing_in_the_middle :
  let w := guest ["abc"%string] "axbc" ["doc"%string] in
  let change := typed 1 "x" in
  let pos := positionAt (docText w) (rangeOffset change) in
  let r := handleTextChange (mkEvent "doc" [change]) w in
  pidAt (crdt (this w)) (rangeOffset change - 1) = pidA /\
  previousPid w pos 0 = docStart /\
  pidAt (crdt (this w)) (rangeOffset change) = pidB /\
  nextPid w change pos 0 = pidC /\
  wire (effects r) =
    [MSG_TEXT (OP_INS "x" (Some [(1, guestSite)])) (Some (1, hostSite)) (Some guestSite)] /\
  asString (crdt (this (world r))) = "xabc"%string /\
  docText (world r) = "axbc"%string.
Proof. vm_compute. repeat split. Qed.

(** The same in general: the guest would send the same INSERT and reach
    the same CRDT had "x" been typed in front of "a". *)
Lemma typing_anywhere_is_typing_in_front :
  handleTextChange (mkEvent "doc" [typed 1 "x"]) (guest ["abc"%string] "axbc" ["doc"%string]) =
  handleTextChange (mkEvent "doc" [typed 0 "x"]) (guest ["abc"%string] "axbc" ["doc"%string]).
Proof. vm_compute. reflexivity. Qed.

(** After the remote DELETE of "b" the guest deletes "c" by hand: the
    change has the range of the stale marker and is taken for an echo;
    nothing is sent and the CRDT keeps "c". *)
Lemma deletion_after_remote_delete_is_dropped :
  let remote := MSG_TEXT (OP_DEL pidB (Some "b"%string)) (Some (1, hostSite)) (Some hostSite) in
  let w1 := world (handleMessage remote (guest ["abc"%string] "abc" ["doc"%string])) in
  let r := handleTextChange (mkEvent "doc" [replaced 1 1 ""]) (with_docText "a" w1) in
  docText w1 = "ac"%string /\ asString (crdt (this w1)) = "ac"%string /\
  effects r = [] /\ asString (crdt (this (world r))) = "ac"%string.
Proof. vm_compute. repeat split. Qed.

(** A guest told that it is the first to connect closes the connection,
    and then stores the site and requests the buffer. *)
Lemma first_guest_goes_on :
  let r := handleMessage (MSG_AVAILABLE true 7 false) connecting in
  clientId (this (world r)) = Some 7 /\
  effects r =
    [Validate (MSG_AVAILABLE true 7 false);
     ShowErrorMessage "Error: guest was first to connect"; WsClose;
     Validate MSG_REQUEST; WsSend MSG_REQUEST].
Proof. vm_compute. split; reflexivity. Qed.

(** *** Instances of the statements with a hypothesis *)

Lemma handleTextChange_other_document_witness :
  let e := mkEvent "other" [typed 0 "x"] in
  let w := guest ["abc"%string] "abc" ["doc"%string] in
  e_document e <> document (this w) /\
  handleTextChange e w = (Fulfilled tt, w, []).
Proof.
  cbv zeta. split.
  - apply String.eqb_neq. reflexivity.
  - apply handleTextChange_other_document. apply String.eqb_neq. reflexivity.
Defined.

Lemma remote_apply_without_editor_witness :
  let w := guest ["abc"%string] "abc" [] in
  hasEditor w = false /\
  effects (handleRemoteInsert (Some [(25, hostSite)]) "x" (Some hostSite) w)
    = noEditorEffects w /\
  effects (handleRemoteDelete pidB (Some "b"%string) (Some hostSite) w)
    = noEditorEffects w.
Proof.
  cbv zeta. split; [reflexivity |].
  pose proof (remote_apply_without_editor (Some [(25, hostSite)]) "x" (Some "b"%string)
                (Some hostSite) (guest ["abc"%string] "abc" []) eq_refl) as W.
  cbv zeta in W. split; apply W.
Defined.

Lemma handleRemoteInsert_applies_witness :
  let w := guest ["abc"%string] "abc" ["doc"%string] in
  hasEditor w = true /\
  activeEdit (this (world (handleRemoteInsert (Some [(25, hostSite)]) "x"
                                              (Some hostSite) w))) = None.
Proof.
  cbv zeta. split; [reflexivity |].
  exact (proj1 (proj2 (proj2 (proj2
           (handleRemoteInsert_applies (Some [(25, hostSite)]) "x" (Some hostSite)
              (guest ["abc"%string] "abc" ["doc"%string]) eq_refl))))).
Defined.

(** *** Instances of the further statements with a hypothesis *)


Lemma replace_with_refused_delete_witness :
  let w := guest ["abc"%string] "abc" ["doc"%string] in
  let change := replaced 5 1 "x" in
  0 < rangeLength change /\
  isDeleteEcho (activeEdit (this w)) change = false /\
  forallb (deleteAccepted w) (deletedPids w change) = false /\
  validations (effects (handleTextChange (mkEvent (document (this w)) [change]) w)) =
    map (deleteMessage w) (deletedPids w change).
Proof.
  cbv zeta. split; [reflexivity |]. split; [reflexivity |]. split; [reflexivity |].
  exact (proj1 (proj2
           (replace_with_refused_delete (replaced 5 1 "x")
              (guest ["abc"%string] "abc" ["doc"%string]) eq_refl eq_refl eq_refl))).
Defined.

Lemma pure_deletion_witness :
  let w := guest ["abc"%string] "ac" ["doc"%string] in
  let change := replaced 1 1 "" in
  0 < rangeLength change /\
  isDeleteEcho (activeEdit (this w)) change = false /\
  text change = ""%string /\
  handleTextChange (mkEvent (document (this w)) [change]) w =
    deleteFromContentChange change w.
Proof.
  cbv zeta. split; [reflexivity |]. split; [reflexivity |]. split; [reflexivity |].
  exact (pure_deletion (replaced 1 1 "") (guest ["abc"%string] "ac" ["doc"%string])
           eq_refl eq_refl eq_refl).
Defined.

Lemma remote_insert_on_first_line_witness :
  let w := guest ["abc"%string] "abc" ["doc"%string] in
  let pid : Pid := Some [(25, hostSite)] in
  hasEditor w = true /\ "x"%string <> ""%string /\
  line (positionAt (docText w) (fst (crdt_insert (crdt (this w)) pid "x") - 2)) = 0 /\
  effects (handleRemoteInsert pid "x" (Some hostSite) w) =
    [EditInsert (mkPosition 0 1) "x"].
Proof.
  cbv zeta.
  assert (Hc : "x"%string <> ""%string) by (apply String.eqb_neq; reflexivity).
  split; [reflexivity |]. split; [exact Hc |]. split; [reflexivity |].
  exact (f_equal snd
           (remote_insert_on_first_line (Some [(25, hostSite)]) "x" (Some hostSite)
              (guest ["abc"%string] "abc" ["doc"%string]) eq_refl Hc eq_refl)).
Defined.

Lemma remote_insert_on_later_line_witness :
  let w := guest ["ab"%string; "cd"%string] ("ab" ++ String newline "cd") ["doc"%string] in
  let pid : Pid := Some [(55, hostSite)] in
  let pos := positionAt (docText w) (fst (crdt_insert (crdt (this w)) pid "x") - 2) in
  hasEditor w = true /\ textListener w = true /\ "x"%string <> ""%string /\
  0 < line pos /\
  exists pids,
    List.length pids = List.length (split "x") /\
    effects (handleRemoteInsert pid "x" (Some hostSite) w) =
      EditInsert pos "x" ::
      flat_map sendEffects (map (insertMessage w) (combine pids (split "x"))).
Proof.
  cbv zeta.
  assert (Hc : "x"%string <> ""%string) by (apply String.eqb_neq; reflexivity).
  split; [reflexivity |]. split; [reflexivity |]. split; [exact Hc |].
  split; [reflexivity |].
  exact (remote_insert_on_later_line (Some [(55, hostSite)]) "x" (Some hostSite)
           (guest ["ab"%string; "cd"%string] ("ab" ++ String newline "cd") ["doc"%string])
           eq_refl eq_refl Hc eq_refl).
Defined.

Lemma remote_delete_is_not_sent_again_witness :
  let w := guest ["abc"%string] "abc" ["doc"%string] in
  hasEditor w = true /\
  effects (handleRemoteDelete pidB (Some "b"%string) (Some hostSite) w) =
    [EditDelete (mkRange (mkPosition 0 1) (mkPosition 0 2))].
Proof.
  cbv zeta. split; [reflexivity |].
  exact (proj1
           (remote_delete_is_not_sent_again pidB (Some "b"%string) (Some hostSite)
              (guest ["abc"%string] "abc" ["doc"%string]) eq_refl)).
Defined.

Lemma remote_delete_of_low_index_witness :
  let w := guest ["abc"%string] "abc" ["doc"%string] in
  let absent : Pid := Some [(25, hostSite)] in
  hasEditor w = true /\
  fst (crdt_delete (crdt (this w)) absent) <= 2 /\
  docText w = String "a" "bc" /\
  is_newline "a" = false /\
  docText (world (handleRemoteDelete absent (Some "b"%string) (Some hostSite) w)) =
    "bc"%string.
Proof.
  cbv zeta. split; [reflexivity |].
  assert (Hi : fst (crdt_delete (crdt (this (guest ["abc"%string] "abc" ["doc"%string])))
                      (Some [(25, hostSite)])) <= 2) by (apply Z.leb_le; reflexivity).
  split; [exact Hi |]. split; [reflexivity |]. split; [reflexivity |].
  exact (proj1
           (remote_delete_of_low_index (Some [(25, hostSite)]) (Some "b"%string)
              (Some hostSite) "a"%char "bc"
              (guest ["abc"%string] "abc" ["doc"%string]) eq_refl Hi eq_refl eq_refl)).
Defined.

Lemma message_without_handler_witness :
  isHandled (MSG_REQUEST : Message Pid) = false /\
  handleMessage MSG_REQUEST connecting =
    (Fulfilled tt, connecting, [Validate MSG_REQUEST; ShowUnhandledMessage MSG_REQUEST]).
Proof.
  split; [reflexivity |].
  exact (message_without_handler MSG_REQUEST connecting eq_refl).
Defined.

Lemma initial_snapshot_is_sent_back_witness :
  let uids := [0; 10; 20; 30; 40] in
  textListener connecting = true /\
  activeEdit (this connecting) = None /\
  asString (initialize (crdt (this connecting)) hostSite uids ["abc"%string])
    <> ""%string /\
  docText (world (handleInitialMessage "buffer" (1, hostSite) uids ["abc"%string]
                    connecting)) = "abc"%string.
Proof.
  cbv zeta.
  assert (Hs : asString (initialize (crdt (this connecting)) hostSite [0; 10; 20; 30; 40]
                           ["abc"%string]) <> ""%string)
    by (apply String.eqb_neq; reflexivity).
  split; [reflexivity |]. split; [reflexivity |]. split; [exact Hs |].
  exact (proj1
           (initial_snapshot_is_sent_back "buffer" (1, hostSite) [0; 10; 20; 30; 40]
              ["abc"%string] connecting eq_refl eq_refl Hs)).
Defined.

Lemma insertions_of_one_event_witness :
  let w := guest ["abc"%string] "xabyc" ["doc"%string] in
  let changes := [typed 0 "x"; typed 3 "y"] in
  forallb (fun change => (rangeLength change =? 0) &&
                         negb (isInsertEcho (activeEdit (this w)) change)) changes = true /\
  handleTextChange (mkEvent (document (this w)) changes) w =
    (promises <- mapSettle insertFromContentChange changes ;; awaitAll promises) w.
Proof.
  cbv zeta. split; [reflexivity |].
  exact (insertions_of_one_event [typed 0 "x"; typed 3 "y"]
           (guest ["abc"%string] "xabyc" ["doc"%string]) eq_refl).
Defined.

Import Desks.

Lemma startSession_needs_an_active_editor_witness :
  activeDocument noEditor = None /\
  parseSessionUrl (urlAnswer noEditor) = Fulfilled (Some "ws://localhost:8080"%string) /\
  created (snd (startSession noEditor)) = [].
Proof.
  split; [reflexivity |]. split; [reflexivity |].
  exact (proj2 (startSession_needs_an_active_editor noEditor "ws://localhost:8080"%string
                  eq_refl eq_refl)).
Defined.

Lemma address_is_given_a_scheme_witness :
  hasScheme "wss://example.com/x" = true /\
  attachUrl "wss://example.com/x" = "wss://example.com/x"%string /\
  hasScheme "localhost:8080" = false /\
  attachUrl "localhost:8080" = "ws://localhost:8080"%string.
Proof.
  split; [reflexivity |].
  split; [exact (proj1 (proj2 (address_is_given_a_scheme "wss://example.com/x")) eq_refl) |].
  split; [reflexivity |].
  exact (proj1 (proj2 (proj2 (address_is_given_a_scheme "localhost:8080"))) eq_refl).
Defined.
